(** * gatewayorg/faucet: the funding-request dispatcher of [ws.go]

    A shallow embedding of [OnWebsocket] (src/ws.go) and of the flags and
    constants it reads from src/faucet.go, together with the statements
    the specification makes about the tier calculator, the rate limiter
    and the per-connection dispatch loop.

    Conventions.
    - Go's [int], [int64] and [time.Duration] are 64-bit two's complement
      integers: a [Z] with the wrap-around written out ([GoInt.int64]).
      [uint] is a [Z] reduced modulo 2^64 ([GoInt.uint64]).
    - [float64] is IEEE 754 binary64, taken from the Standard Library's
      executable specification [SpecFloat] (precision 53, emax 1024).
    - [*big.Int] is [Z].
    - [time.Time] is a [Z]: nanoseconds elapsed since the zero [Time],
      which is what a missing key of [faucet.timeouts] reads as.
    - [faucet.timeouts], a [map[string]time.Time], is a [gmap string Z]. *)

From Stdlib Require Import ZArith QArith Lia List Bool SpecFloat.
From stdpp Require Import base option strings gmap pretty.

Local Open Scope Z_scope.

(** ** Fixed-width integers *)

Module GoInt.

(** Two's complement reduction to 64 bits: what an [int64] (and an
    [int], a [time.Duration]) holds after an operation whose exact
    result is [z]. *)
Definition int64 (z : Z) : Z := (z + 2 ^ 63) mod 2 ^ 64 - 2 ^ 63.

(** Reduction to an unsigned 64-bit [uint]; [uint(x)] of an [int]. *)
Definition uint64 (z : Z) : Z := z mod 2 ^ 64.

Definition min_int64 : Z := - 2 ^ 63.
Definition max_int64 : Z := 2 ^ 63 - 1.

Definition in_int64 (z : Z) : Prop := min_int64 <= z <= max_int64.

(** Multiplication of two [int]s (or [Duration]s) at run time. *)
Definition mul (a b : Z) : Z := int64 (a * b).

(** Subtraction of two [Duration]s. *)
Definition sub (a b : Z) : Z := int64 (a - b).

(** Go's [/] on signed integers truncates toward zero. *)
Definition div (a b : Z) : Z := Z.quot a b.

End GoInt.

(** ** binary64 and the part of package [math] the dispatcher calls *)

Module Float64.

Definition prec : Z := 53.
Definition emax : Z := 1024.

Definition float64 : Type := spec_float.

Definition mul : float64 -> float64 -> float64 := SFmul prec emax.
Definition add : float64 -> float64 -> float64 := SFadd prec emax.
Definition ltb : float64 -> float64 -> bool := SFltb.
Definition eqb : float64 -> float64 -> bool := SFeqb.

(** [float64(n)] of an integer: round to nearest, ties to even. *)
Definition of_Z (n : Z) : float64 := binary_normalize prec emax n 0 false.

(** The dyadic [m * 2^e] as a float; used for literals such as [0.5]. *)
Definition of_dyadic (m e : Z) : float64 := binary_normalize prec emax m e false.

Definition one : float64 := of_Z 1.
Definition half : float64 := of_dyadic 1 (-1).

(** The integer part of a finite float, rounded toward zero. *)
Definition trunc (f : float64) : option Z :=
  match f with
  | S754_zero _ => Some 0
  | S754_finite s m e => Some (cond_Zopp s (Z.shiftl (Z.pos m) e))
  | S754_infinity _ | S754_nan => None
  end.

(** [int64(f)] and [int(f)]: truncation toward zero.  When the value
    does not fit, or [f] is not finite, Go leaves the result to the
    implementation; amd64's CVTTSD2SQ yields the "integer indefinite"
    value, the smallest [int64]. *)
Definition to_int64 (f : float64) : Z :=
  match trunc f with
  | Some z =>
      if (GoInt.min_int64 <=? z) && (z <=? GoInt.max_int64) then z
      else GoInt.min_int64
  | None => GoInt.min_int64
  end.

(** [math.Frexp]: [f = frac * 2^exp] with [1/2 <= |frac| < 1]; zero,
    infinities and NaN are returned with exponent 0. *)
Definition Frexp (f : float64) : float64 * Z :=
  match f with
  | S754_finite _ _ _ => SFfrexp prec emax f
  | _ => (f, 0)
  end.

(** [math.Ldexp]: [frac * 2^exp], correctly rounded. *)
Definition Ldexp (frac : float64) (exp : Z) : float64 :=
  SFldexp prec emax frac exp.

(** The loop of [math.Pow] that multiplies in [x^yi], [x] being held as
    [x1 * 2^xe] and the answer as [a1 * 2^ae].  The Go loop runs over
    the bits of [i := int64(yi)], lowest first, until [i] is zero;
    here it recurses on the binary digits of the positive [i]. *)
Fixpoint pow_loop (i : positive) (a1 : float64) (ae : Z)
         (x1 : float64) (xe : Z) : float64 * Z :=
  if (xe <? - 2 ^ 12) || (2 ^ 12 <? xe) then
    (* catastrophic overflow *)
    (a1, ae + xe)
  else
    let '(a1', ae') :=
      match i with
      | xH | xI _ => (mul a1 x1, ae + xe)
      | xO _ => (a1, ae)
      end in
    let x2 := mul x1 x1 in
    let xe2 := xe * 2 in
    let '(x1', xe') :=
      if ltb x2 half then (add x2 x2, xe2 - 1) else (x2, xe2) in
    match i with
    | xH => (a1', ae')
    | xO j | xI j => pow_loop j a1' ae' x1' xe'
    end.

(** Whether a finite float holds an integer. *)
Definition is_integral (f : float64) : bool :=
  match f with
  | S754_zero _ => true
  | S754_finite _ m e =>
      (0 <=? e) || (Z.land (Z.pos m) (Z.ones (- e)) =? 0)
  | _ => false
  end.

(** [math.Pow(x, y)] for a finite [x > 1] and a finite integral [y >= 0],
    the arguments [OnWebsocket] passes ([3] and [float64] of a [uint]).
    In the order of the Go function: [y == 0] or [x == 1] gives 1;
    [y == 1] gives [x]; an integer part of [y] at or above [2^63] gives
    [+Inf]; otherwise the loop above followed by [Ldexp].  The special
    cases for NaN, zero, infinite, negative or fractional arguments are
    outside this model, which answers NaN there. *)
Definition Pow (x y : float64) : float64 :=
  if eqb y (of_Z 0) || eqb x one then one
  else if eqb y one then x
  else
    match x, trunc y with
    | S754_finite false _ _, Some yi =>
        if is_integral y && (0 <? yi) && ltb one x then
          if 2 ^ 63 <=? yi then S754_infinity false
          else
            let '(x1, xe) := Frexp x in
            let '(a1, ae) := pow_loop (Z.to_pos yi) one 0 x1 xe in
            Ldexp a1 ae
        else S754_nan
    | _, _ => S754_nan
    end.

End Float64.

(** ** [math/big] *)

Module Big.

Definition NewInt (x : Z) : Z := x.

Definition Mul (x y : Z) : Z := x * y.

(** [Exp(x, y, nil)]: [x^y], and 1 when [y <= 0]. *)
Definition Exp (x y : Z) : Z := if y <=? 0 then 1 else x ^ y.

(** [Div] is Euclidean division: the remainder is never negative.
    (Go panics on a zero divisor; the dispatcher divides by a power of
    two.) *)
Definition Div (x y : Z) : Z := Z.sgn y * (x / Z.abs y).

End Big.

(** ** Flags and constants of [faucet.go] *)

(** The three flags the dispatcher reads: [faucet.tiers] (an [int]),
    [faucet.amount] (a [float64]) and [faucet.minutes] (an [int]). *)
Record Flags : Type := {
  tiersFlag : Z;
  payoutFlag : Float64.float64;
  minutesFlag : Z
}.

(** [ether = 1000_000_000_000_000_000], the token's smallest units in one
    token; the multiplication takes it as a [*big.Int], which is how the
    line the source keeps in a comment builds it (10^18). *)
Definition ether : Z := 1000000000000000000.

(** [time.Second] and [time.Minute], in nanoseconds. *)
Definition Second : Z := 1000000000.
Definition Minute : Z := 60 * Second.

(** ** The tier calculator: lines 144-146 and 157-158 of [ws.go] *)

(** [amount]: the payout handed to [SendTx] for a tier. *)
Definition amount (fl : Flags) (tier : Z) : Z :=
  let a := Big.Mul (Big.NewInt (Float64.to_int64 (payoutFlag fl))) ether in
  let a := Big.Mul a (Big.Exp (Big.NewInt 5) (Big.NewInt (GoInt.int64 tier))) in
  Big.Div a (Big.Exp (Big.NewInt 2) (Big.NewInt (GoInt.int64 tier))).

(** [int(math.Pow(3, float64(tier)))]. *)
Definition pow3 (tier : Z) : Z :=
  Float64.to_int64 (Float64.Pow (Float64.of_Z 3) (Float64.of_Z tier)).

(** The cooldown: the [timeout] declared on line 157,
    [time.Duration(minutes * int(math.Pow(3, tier))) * time.Minute], a
    [Duration] in nanoseconds (not the [timeout] of line 140, which is the
    stored [Time]). *)
Definition cooldown (fl : Flags) (tier : Z) : Z :=
  GoInt.mul (GoInt.mul (minutesFlag fl) (pow3 tier)) Minute.

(** [grace := timeout / 288]. *)
Definition grace (timeout : Z) : Z := GoInt.div timeout 288.

(** ** Package [time] *)

(** [t.After(u)]. *)
Definition After (t u : Z) : bool := u <? t.

(** [t.Add(d)]. *)
Definition Add (t d : Z) : Z := t + d.

(** [time.Until(t)] read at [now]: [t.Sub(now)], which saturates at the
    ends of the [Duration] range. *)
Definition Until (t now : Z) : Z :=
  Z.max GoInt.min_int64 (Z.min GoInt.max_int64 (t - now)).

(** ** Messages, events and the world the dispatcher runs in *)

(** The request [ReadJSON] decodes; [Tier] is a [uint]. *)
Record Msg : Type := {
  URL : string;
  Tier : Z;
  Captcha : string
}.

(** A reply: [{"error": s}] or [{"success": s}]. *)
Inductive Reply : Type :=
| ReplyError (s : string)
| ReplySuccess (s : string).

(** What a worker does that another worker, the chain or the client can
    observe, in the order it does it. *)
Inductive Event : Type :=
| EvLock
| EvUnlock
| EvLookup (url : string)
| EvStore (url : string) (t : Z)
| EvSendTx (amt : Z) (to : string)
| EvSend (r : Reply)
| EvClose.

(** The shared [faucet] struct ([timeouts] and [conns]) and the events so
    far. Connections are named by numbers. *)
Record World : Type := {
  timeouts : gmap string Z;
  conns : list nat;
  events : list Event
}.

(** What the outside answers during one iteration of the loop: the three
    readings of [time.Now()] (line 142, line 160, and inside [time.Until]
    on line 167), the outcome of [SendTx] ([None] for a nil error,
    otherwise the error's message), whether the write of a reply
    succeeds, and go-ethereum's [common.PrettyDuration] formatting. *)
Record Env : Type := {
  now_check : Z;
  now_commit : Z;
  now_reply : Z;
  SendTx : Z -> string -> option string;
  WriteJSON : Reply -> bool;
  PrettyDuration : Z -> string
}.

(** How an iteration ends: [continue] (or falling off the end of the
    body) or [return]. *)
Inductive Flow : Type := Continue | Return.

(** The state monad of a worker. *)
Definition M (A : Type) : Type := World -> A * World.

#[global] Instance M_ret : MRet M := fun A (a : A) w => (a, w).

#[global] Instance M_bind : MBind M :=
  fun A B (f : A -> M B) (m : M A) w => let '(a, w') := m w in f a w'.

Definition emit (e : Event) : M unit :=
  fun w => (tt, {| timeouts := timeouts w; conns := conns w;
                   events := events w ++ [e] |}).

(** [faucet.lock.Lock()] and [faucet.lock.Unlock()]. *)
Definition Lock : M unit := emit EvLock.
Definition Unlock : M unit := emit EvUnlock.

(** [faucet.timeouts[url]]: the zero [Time] when the key is missing. *)
Definition lookup_timeout (url : string) : M Z :=
  _ ← emit (EvLookup url);
  ((fun w => (default 0 (timeouts w !! url), w)) : M Z).

(** [faucet.timeouts[url] = t]. *)
Definition store_timeout (url : string) (t : Z) : M unit :=
  _ ← emit (EvStore url t);
  ((fun w => (tt, {| timeouts := <[url := t]> (timeouts w); conns := conns w;
                     events := events w |})) : M unit).

Definition callSendTx (env : Env) (amt : Z) (to : string) : M (option string) :=
  _ ← emit (EvSendTx amt to);
  mret (SendTx env amt to).

(** [send]: the reply is written under the connection's own write lock;
    the result is whether [WriteJSON] returned a nil error. *)
Definition send (env : Env) (r : Reply) : M bool :=
  _ ← emit (EvSend r);
  mret (WriteJSON env r).

Definition sendError (env : Env) (err : string) : M bool :=
  send env (ReplyError err).

Definition sendSuccess (env : Env) (msg : string) : M bool :=
  send env (ReplySuccess msg).

(** After a reply: [return] when the write failed, else go on. *)
Definition after_send (ok : bool) : Flow := if ok then Continue else Return.

(** ** [OnWebsocket]: one iteration of the [for] loop (lines 117-177),
    once [ReadJSON] has produced [msg]. *)
Definition iteration (fl : Flags) (env : Env) (msg : Msg) : M Flow :=
  if GoInt.uint64 (tiersFlag fl) <=? Tier msg then
    ok ← sendError env "Invalid funding tier requested";
    mret (after_send ok)
  else
    _ ← Lock;
    timeout ← lookup_timeout (URL msg);
    if After (now_check env) timeout then
      r ← callSendTx env (amount fl (Tier msg)) (URL msg);
      match r with
      | Some err =>
          _ ← Unlock;
          ok ← sendError env err;
          mret (after_send ok)
      | None =>
          let timeout' := cooldown fl (Tier msg) in
          let grace' := grace timeout' in
          _ ← store_timeout (URL msg)
                (Add (now_commit env) (GoInt.sub timeout' grace'));
          _ ← Unlock;
          ok ← sendSuccess env
                 ("Funding request accepted for Faucet into " +:+ URL msg);
          mret (after_send ok)
      end
    else
      _ ← Unlock;
      ok ← sendError env
             (PrettyDuration env (Until timeout (now_reply env))
                +:+ " left until next allowance");
      mret (after_send ok).

(** The [for] loop over what the client sends: [None] is a [ReadJSON]
    error, which returns; each request comes with what the outside
    answers while it is served. *)
Fixpoint serve (fl : Flags) (reqs : list (option Msg * Env)) : M unit :=
  match reqs with
  | [] => mret tt
  | (None, _) :: _ => mret tt
  | (Some msg, env) :: rest =>
      f ← iteration fl env msg;
      match f with
      | Continue => serve fl rest
      | Return => mret tt
      end
  end.

(** [faucet.conns = append(faucet.conns, wsconn)]. *)
Definition register (c : nat) : M unit :=
  fun w => (tt, {| timeouts := timeouts w; conns := conns w ++ [c];
                   events := events w |}).

(** The deferred removal: the first entry for the connection is cut out. *)
Fixpoint remove_first (c : nat) (l : list nat) : list nat :=
  match l with
  | [] => []
  | x :: l' => if Nat.eqb x c then l' else x :: remove_first c l'
  end.

Definition deregister (c : nat) : M unit :=
  fun w => (tt, {| timeouts := timeouts w; conns := remove_first c (conns w);
                   events := events w |}).

(** [OnWebsocket] after a successful upgrade: register, serve, and on
    return run the deferred calls (deregister, then close). *)
Definition OnWebsocket (fl : Flags) (c : nat) (reqs : list (option Msg * Env))
  : M unit :=
  _ ← Lock; _ ← register c; _ ← Unlock;
  _ ← serve fl reqs;
  _ ← Lock; _ ← deregister c; _ ← Unlock;
  emit EvClose.

(** An iteration run from a given map, with no events yet. *)
Definition start (tm : gmap string Z) : World :=
  {| timeouts := tm; conns := []; events := [] |}.

Definition run_iteration (fl : Flags) (env : Env) (msg : Msg)
  (tm : gmap string Z) : Flow * World :=
  iteration fl env msg (start tm).

(** ** Reading a run *)

(** The validation of line 127: the tier is refused. *)
Definition tier_rejected (fl : Flags) (msg : Msg) : bool :=
  GoInt.uint64 (tiersFlag fl) <=? Tier msg.

(** A tier that passes line 127. *)
Definition valid_tier (fl : Flags) (tier : Z) : Prop :=
  tier < GoInt.uint64 (tiersFlag fl).

(** A tier below a tier count that is a non-negative [int]. *)
Definition tier_in_range (fl : Flags) (tier : Z) : Prop :=
  0 <= tier < tiersFlag fl /\ tiersFlag fl <= GoInt.max_int64.

(** What line 142 reads for an identifier. *)
Definition stored (tm : gmap string Z) (url : string) : Z :=
  default 0 (tm !! url).

(** The condition of line 142 at time [now]. *)
Definition eligible (tm : gmap string Z) (url : string) (now : Z) : bool :=
  After now (stored tm url).

Definition is_SendTx (e : Event) : bool :=
  match e with EvSendTx _ _ => true | _ => false end.

Definition is_limiter_access (e : Event) : bool :=
  match e with EvLookup _ | EvStore _ _ => true | _ => false end.

(** The run called the transaction submitter. *)
Definition reaches_submitter (tr : list Event) : bool := existsb is_SendTx tr.

(** The run read or wrote [faucet.timeouts]. *)
Definition touches_limiter (tr : list Event) : bool :=
  existsb is_limiter_access tr.

(** Whether [faucet.lock] is held after an event, given whether it was
    held before. *)
Definition lock_step (held : bool) (e : Event) : bool :=
  match e with
  | EvLock => true
  | EvUnlock => false
  | _ => held
  end.

(** [P held e] for every event [e] of a trace, [held] telling whether the
    worker holds the lock when [e] happens. *)
Fixpoint all_events (P : bool -> Event -> bool) (held : bool)
  (tr : list Event) : bool :=
  match tr with
  | [] => true
  | e :: tr' => P held e && all_events P (lock_step held e) tr'
  end.

Definition held_at_end (tr : list Event) : bool := fold_left lock_step tr false.

Definition SendTx_without_lock (held : bool) (e : Event) : bool :=
  match e with EvSendTx _ _ => negb held | _ => true end.

Definition SendTx_under_lock (held : bool) (e : Event) : bool :=
  match e with EvSendTx _ _ => held | _ => true end.

Definition Send_without_lock (held : bool) (e : Event) : bool :=
  match e with EvSend _ => negb held | _ => true end.

Definition limiter_under_lock (held : bool) (e : Event) : bool :=
  match e with EvLookup _ | EvStore _ _ => held | _ => true end.

Definition count_Lock (tr : list Event) : nat :=
  length (List.filter (fun e => match e with EvLock => true | _ => false end) tr).

(** The trace and the map an iteration ends with. *)
Definition trace_of (fl : Flags) (env : Env) (msg : Msg) (tm : gmap string Z)
  : list Event := events (snd (run_iteration fl env msg tm)).

Definition timeouts_after (fl : Flags) (env : Env) (msg : Msg)
  (tm : gmap string Z) : gmap string Z :=
  timeouts (snd (run_iteration fl env msg tm)).

Definition flow_of (fl : Flags) (env : Env) (msg : Msg) (tm : gmap string Z)
  : Flow := fst (run_iteration fl env msg tm).

(** No identifier's stored time is replaced by an earlier one. *)
Definition never_earlier (tm tm' : gmap string Z) : Prop :=
  forall (url : string) (t : Z),
    tm !! url = Some t -> exists t', tm' !! url = Some t' /\ t <= t'.

(** ** The specification's own formulas, to compare the code with *)

(** The eligibility rule in the specification's words: allowed when the
    identifier has no entry, or [now] is at or after the stored
    next-eligible-time. *)
Definition spec_allowed (tm : gmap string Z) (url : string) (now : Z) : bool :=
  match tm !! url with
  | None => true
  | Some t => t <=? now
  end.

(** The rational a finite float stands for (0 for the others). *)
Definition float_value (f : Float64.float64) : Q :=
  match f with
  | S754_finite s m e =>
      Qmult (inject_Z (cond_Zopp s (Z.pos m))) (Qpower (inject_Z 2) e)
  | _ => inject_Z 0
  end.

(** The payout in the specification's words:
    [basePayout * 5^tier / 2^tier], in token units of [10^-18]. *)
Definition spec_payout (basePayout : Q) (tier : Z) : Q :=
  Qdiv (Qmult (Qmult basePayout (inject_Z ether)) (Qpower (inject_Z 5) tier))
       (Qpower (inject_Z 2) tier).

(** The cooldown in the specification's words:
    [baseCooldownMinutes * 3^tier] minutes, here in nanoseconds. *)
Definition spec_cooldown (baseCooldownMinutes : Z) (tier : Z) : Z :=
  baseCooldownMinutes * 3 ^ tier * Minute.

(** The error text the specification quotes for a refused tier. *)
Definition spec_tier_error : string := "invalid funding tier requested".

(** ** Inputs used in the examples below *)

(** The defaults of [faucet.go], with a chosen number of tiers. *)
Definition default_flags (tiers : Z) : Flags :=
  {| tiersFlag := tiers; payoutFlag := Float64.of_Z 1; minutesFlag := 1440 |}.

(** The same with another base payout [m * 2^e]. *)
Definition flags_with_payout (tiers m e : Z) : Flags :=
  {| tiersFlag := tiers; payoutFlag := Float64.of_dyadic m e;
     minutesFlag := 1440 |}.

(** An outside in which the clock reads [now] throughout, [SendTx]
    answers [tx] and every write succeeds. *)
Definition env_at (now : Z) (tx : option string) : Env :=
  {| now_check := now; now_commit := now; now_reply := now;
     SendTx := fun _ _ => tx; WriteJSON := fun _ => true;
     PrettyDuration := fun _ => "" |}.

Definition request (url : string) (tier : Z) : Msg :=
  {| URL := url; Tier := tier; Captcha := "" |}.

(** An instant late in the year 2025, in nanoseconds since the zero
    [Time]. *)
Definition an_instant : Z := 63900000000000000000.

(** ** [SendTx] (lines 63-89 of [ws.go]) *)

(** A call that returns a value or an error, the error held by its
    message. *)
Inductive Result (A : Type) : Type :=
| Ok (a : A)
| Err (e : string).

Arguments Ok {A} a.
Arguments Err {A} e.

Module Chain.

Section WithTypes.

(** Addresses and signed transactions are go-ethereum's; the faucet only
    passes them on. *)
Context {Address SignedTx : Type}.

(** The arguments of [types.NewTransaction]. *)
Record Transaction : Type := {
  tx_nonce : Z;
  tx_to : Address;
  tx_amount : Z;
  tx_gasLimit : Z;
  tx_gasPrice : Z;
  tx_data : list Z
}.

(** What [SendTx] reads and calls: the globals [fromAddress] and
    [chainID], the three calls on [faucet.client], [common.HexToAddress]
    and [types.SignTx] with the faucet's key. *)
Record Client : Type := {
  fromAddress : Address;
  chainID : Z;
  PendingNonceAt : Address -> Result Z;
  SuggestGasPrice : Result Z;
  HexToAddress : string -> Address;
  SignTx : Transaction -> Z -> Result SignedTx;
  SendTransaction : SignedTx -> option string
}.

(** The calls made on the client and the signer, in order. *)
Inductive Call : Type :=
| CallPendingNonceAt (a : Address)
| CallSuggestGasPrice
| CallSignTx (tx : Transaction) (chain : Z)
| CallSendTransaction (stx : SignedTx).

(** [SendTx(amount, toAddress)]: the calls it makes and the error it
    returns ([None] for nil). *)
Definition SendTx (cl : Client) (amount : Z) (toAddress : string)
  : list Call * option string :=
  match PendingNonceAt cl (fromAddress cl) with
  | Err e => ([CallPendingNonceAt (fromAddress cl)], Some e)
  | Ok nonce =>
      let gasLimit := 21000 in
      match SuggestGasPrice cl with
      | Err e =>
          ([CallPendingNonceAt (fromAddress cl); CallSuggestGasPrice], Some e)
      | Ok gasPrice =>
          let to := HexToAddress cl toAddress in
          let tx := {| tx_nonce := nonce; tx_to := to; tx_amount := amount;
                       tx_gasLimit := gasLimit; tx_gasPrice := gasPrice;
                       tx_data := [] |} in
          match SignTx cl tx (chainID cl) with
          | Err e =>
              ([CallPendingNonceAt (fromAddress cl); CallSuggestGasPrice;
                CallSignTx tx (chainID cl)], Some e)
          | Ok signedTx =>
              ([CallPendingNonceAt (fromAddress cl); CallSuggestGasPrice;
                CallSignTx tx (chainID cl); CallSendTransaction signedTx],
               SendTransaction cl signedTx)
          end
      end
  end.

Definition is_broadcast (c : Call) : bool :=
  match c with CallSendTransaction _ => true | _ => false end.

End WithTypes.

Arguments Transaction : clear implicits.
Arguments Client : clear implicits.
Arguments Call : clear implicits.

End Chain.

(** The outside of an iteration in which the submitter is [Chain.SendTx]
    over a given client. *)
Definition env_with_client {Address SignedTx : Type}
  (env : Env) (cl : Chain.Client Address SignedTx) : Env :=
  {| now_check := now_check env; now_commit := now_commit env;
     now_reply := now_reply env;
     SendTx := fun amt to => snd (Chain.SendTx cl amt to);
     WriteJSON := WriteJSON env; PrettyDuration := PrettyDuration env |}.

(** ** [setupRLimit] (lines 126-135 of [faucet.go]) *)

(** [syscall.Rlimit]: two [uint64]. *)
Record Rlimit : Type := { Cur : Z; Max : Z }.

(** [setupRLimit], given what [Getrlimit] answers and how [Setrlimit]
    answers a request: the limit it has set, or the error it panics
    with. *)
Definition setupRLimit (Getrlimit : Result Rlimit)
  (Setrlimit : Rlimit -> option string) : Result Rlimit :=
  match Getrlimit with
  | Err e => Err e
  | Ok rlimit =>
      let rlimit' := {| Cur := GoInt.uint64 (Max rlimit - 100);
                        Max := Max rlimit |} in
      match Setrlimit rlimit' with
      | Some e => Err e
      | None => Ok rlimit'
      end
  end.

(** ** The periods shown on the website (lines 76-90 of [faucet.go]) *)

(** [strings.HasSuffix] and [strings.TrimSuffix]. *)
Definition HasSuffix (s suffix : string) : bool :=
  String.prefix (String.rev suffix) (String.rev s).

Definition TrimSuffix (s suffix : string) : string :=
  if HasSuffix s suffix then
    String.substring 0 (String.length s - String.length suffix) s
  else s.

(** [period := *minutesFlag * int(math.Pow(3, float64(i)))]. *)
Definition period_minutes (fl : Flags) (i : Z) : Z :=
  GoInt.mul (minutesFlag fl) (pow3 i).

(** The text built for a period of that many minutes; [%d] prints the
    decimal digits, with a minus sign for a negative number, and [%] and
    [/] are Go's truncating remainder and quotient. *)
Definition period_text (period : Z) : string :=
  let text := pretty period +:+ " mins" in
  let '(period, text) :=
    if Z.rem period 60 =? 0 then
      let period := GoInt.div period 60 in
      let text := pretty period +:+ " hours" in
      if Z.rem period 24 =? 0 then
        let period := GoInt.div period 24 in
        (period, pretty period +:+ " days")
      else (period, text)
    else (period, text) in
  if period =? 1 then TrimSuffix text "s" else text.

(** ** Further readings of a run *)

(** The replies written, in order. *)
Fixpoint replies (tr : list Event) : list Reply :=
  match tr with
  | [] => []
  | EvSend r :: tr' => r :: replies tr'
  | _ :: tr' => replies tr'
  end.

(** The three lock rules of a worker at one event: the submitter and the
    map only under the lock, a reply only without it. *)
Definition lock_rules (held : bool) (e : Event) : bool :=
  SendTx_under_lock held e && limiter_under_lock held e
  && Send_without_lock held e.

(** A request that was read, served in an outside whose writes succeed. *)
Definition served_ok (rq : option Msg * Env) : Prop :=
  is_Some (fst rq) /\ forall r, WriteJSON (snd rq) r = true.

(** A request whose cooldown has not wrapped, served while the clock does
    not run backward. *)
Definition forward_ok (fl : Flags) (rq : option Msg * Env) : Prop :=
  match fst rq with
  | Some msg =>
      0 <= cooldown fl (Tier msg) /\ now_check (snd rq) <= now_commit (snd rq)
  | None => True
  end.

(** A world whose events so far obey the lock rules and end with the lock
    free. *)
Definition disciplined (w : World) : Prop :=
  all_events lock_rules false (events w) = true
  /\ fold_left lock_step (events w) false = false.

(** An outside in which the clock reads [now], [SendTx] succeeds and no
    write does: the client is gone. *)
Definition env_unwritable (now : Z) : Env :=
  {| now_check := now; now_commit := now; now_reply := now;
     SendTx := fun _ _ => None; WriteJSON := fun _ => false;
     PrettyDuration := fun _ => "" |}.

(** A number of units as the website words it: singular for 1. *)
Definition period_label (n : Z) (unit : string) : string :=
  pretty n +:+ " " +:+ unit +:+ (if n =? 1 then "" else "s").

(** A client whose node answers every call, hands out nonce 7 and a gas
    price of one gwei; addresses are left as the strings they are decoded
    from and a signed transaction is the transaction with its chain. *)
Definition client_example
  : Chain.Client string (Chain.Transaction string * Z) :=
  {| Chain.fromAddress := "faucet";
     Chain.chainID := 100;
     Chain.PendingNonceAt := fun _ => Ok 7;
     Chain.SuggestGasPrice := Ok 1000000000;
     Chain.HexToAddress := fun s => s;
     Chain.SignTx := fun tx chain => Ok (tx, chain);
     Chain.SendTransaction := fun _ => None |}.

(** Whether an iteration stores a new time: the tier passes, the
    identifier is eligible and [SendTx] returns nil. *)
Definition funds (fl : Flags) (env : Env) (msg : Msg) (tm : gmap string Z)
  : bool :=
  negb (tier_rejected fl msg)
  && eligible tm (URL msg) (now_check env)
  && match SendTx env (amount fl (Tier msg)) (URL msg) with
     | None => true
     | Some _ => false
     end.

(** The time line 160 stores. *)
Definition committed_time (fl : Flags) (env : Env) (msg : Msg) : Z :=
  Add (now_commit env)
    (GoInt.sub (cooldown fl (Tier msg)) (grace (cooldown fl (Tier msg)))).

(** A world with a given map and registry and no events yet. *)
Definition world (tm : gmap string Z) (cs : list nat) : World :=
  {| timeouts := tm; conns := cs; events := [] |}.

(** * Properties *)

(** ** Fixed-width arithmetic *)

Lemma int64_id (z : Z) : GoInt.in_int64 z -> GoInt.int64 z = z.
Proof.
  unfold GoInt.in_int64, GoInt.min_int64, GoInt.max_int64, GoInt.int64.
  intros Hz. rewrite Z.mod_small; lia.
Qed.

Lemma int64_in_range (z : Z) : GoInt.in_int64 (GoInt.int64 z).
Proof.
  unfold GoInt.in_int64, GoInt.min_int64, GoInt.max_int64, GoInt.int64.
  pose proof (Z.mod_pos_bound (z + 2 ^ 63) (2 ^ 64) ltac:(lia)). lia.
Qed.

Lemma uint64_id (z : Z) : 0 <= z <= GoInt.max_int64 -> GoInt.uint64 z = z.
Proof.
  unfold GoInt.max_int64, GoInt.uint64. intros Hz.
  apply Z.mod_small. lia.
Qed.

(** [timeout - grace] never wraps: the grace has the sign of the timeout
    and is no larger. *)
Lemma quot_288_bounds (c : Z) :
  (0 <= c -> 0 <= c ÷ 288 <= c) /\ (c <= 0 -> c <= c ÷ 288 <= 0).
Proof.
  pose proof (Z.quot_rem' c 288) as Hqr.
  split; intros Hc.
  - pose proof (Z.rem_bound_pos c 288 Hc ltac:(lia)). lia.
  - pose proof (Z.rem_bound_pos_neg c 288 ltac:(lia) Hc). lia.
Qed.

Lemma sub_grace (c : Z) :
  GoInt.in_int64 c -> GoInt.sub c (grace c) = c - c ÷ 288.
Proof.
  intros Hc. unfold GoInt.sub, grace, GoInt.div.
  apply int64_id.
  destruct (quot_288_bounds c) as [Hpos Hneg].
  unfold GoInt.in_int64, GoInt.min_int64, GoInt.max_int64 in *.
  destruct (Z.le_ge_cases 0 c) as [H0 | H0].
  - specialize (Hpos H0). lia.
  - specialize (Hneg H0). lia.
Qed.

Lemma sub_grace_sign (c : Z) : 0 <= c -> 0 <= c - c ÷ 288.
Proof. intros Hc. destruct (quot_288_bounds c) as [Hpos _]. specialize (Hpos Hc). lia. Qed.

(** ** [math.Pow(3, t)] is exact while [3^t] fits a binary64 mantissa *)

Lemma pow3_table :
  forallb (fun t => pow3 t =? 3 ^ t) (map Z.of_nat (seq 0 34)) = true.
Proof. vm_compute. reflexivity. Qed.

Lemma pow3_exact (t : Z) : 0 <= t <= 33 -> pow3 t = 3 ^ t.
Proof.
  intros Ht.
  pose proof pow3_table as Htab.
  rewrite forallb_forall in Htab.
  apply Z.eqb_eq, Htab.
  rewrite <- (Z2Nat.id t) by lia.
  apply in_map, in_seq. lia.
Qed.

(** Beyond that the float is no longer the power. *)
Lemma pow3_inexact_34 : pow3 34 = 3 ^ 34 - 1.
Proof. vm_compute. reflexivity. Qed.

(** ** The tier calculator *)

(** The cooldown is [minutes * 3^tier] minutes whenever that many
    nanoseconds fit a [Duration]. *)
Lemma cooldown_exact (fl : Flags) (t : Z) :
  0 <= t ->
  GoInt.in_int64 (spec_cooldown (minutesFlag fl) t) ->
  cooldown fl t = spec_cooldown (minutesFlag fl) t.
Proof.
  intros Ht Hr. unfold cooldown, GoInt.mul, spec_cooldown in *.
  destruct (Z.eq_dec (minutesFlag fl) 0) as [E | E].
  - rewrite E, !Z.mul_0_l. reflexivity.
  - assert (Hpos : 0 < 3 ^ t) by (apply Z.pow_pos_nonneg; lia).
    assert (H17 : t <= 17).
    { destruct (Z.le_gt_cases t 17) as [H | H]; [exact H | exfalso].
      assert (Hge : 3 ^ 18 <= 3 ^ t) by (apply Z.pow_le_mono_r; lia).
      change (3 ^ 18) with 387420489 in Hge.
      unfold GoInt.in_int64, GoInt.min_int64, GoInt.max_int64 in Hr.
      change Minute with 60000000000 in Hr.
      change (2 ^ 63) with 9223372036854775808 in Hr.
      nia. }
    rewrite pow3_exact by lia.
    rewrite (int64_id (minutesFlag fl * 3 ^ t)).
    + apply int64_id; exact Hr.
    + unfold GoInt.in_int64, GoInt.min_int64, GoInt.max_int64 in *.
      change Minute with 60000000000 in Hr.
      nia.
Qed.

Lemma spec_cooldown_step (m t : Z) :
  1 <= t -> spec_cooldown m t = spec_cooldown m (t - 1) * 3.
Proof.
  intros Ht. unfold spec_cooldown.
  replace t with (Z.succ (t - 1)) at 1 by lia.
  rewrite Z.pow_succ_r by lia. ring.
Qed.

(** A cooldown in range at tier [t] is in range at tier [t - 1]. *)
Lemma spec_cooldown_range_pred (m t : Z) :
  1 <= t ->
  GoInt.in_int64 (spec_cooldown m t) ->
  GoInt.in_int64 (spec_cooldown m (t - 1)).
Proof.
  intros Ht Hr. rewrite spec_cooldown_step in Hr by exact Ht.
  unfold GoInt.in_int64, GoInt.min_int64, GoInt.max_int64 in *. lia.
Qed.

(** The amount for a tier below a well-formed tier count. *)
Lemma amount_in_range (fl : Flags) (t : Z) :
  tier_in_range fl t ->
  amount fl t = (Float64.to_int64 (payoutFlag fl) * ether * 5 ^ t) / 2 ^ t.
Proof.
  intros [[H0 Hlt] Hmax].
  unfold amount, Big.Div, Big.Mul, Big.Exp, Big.NewInt.
  rewrite int64_id
    by (unfold GoInt.in_int64, GoInt.min_int64, GoInt.max_int64 in *; lia).
  assert (H2 : 0 < 2 ^ t) by (apply Z.pow_pos_nonneg; lia).
  destruct (Z.leb_spec t 0) as [Hz | Hz].
  - assert (t = 0) by lia. subst t. cbn [Z.pow]. simpl Z.sgn. simpl Z.abs.
    rewrite Z.mul_1_l. reflexivity.
  - rewrite Z.sgn_pos, Z.abs_eq by lia. rewrite Z.mul_1_l. reflexivity.
Qed.

Lemma tier_in_range_valid (fl : Flags) (t : Z) :
  tier_in_range fl t -> valid_tier fl t.
Proof.
  intros [[H0 Hlt] Hmax]. unfold valid_tier.
  rewrite uint64_id by lia. exact Hlt.
Qed.

(** [2^18] divides [10^18]: up to tier 18 the division is exact. *)
Lemma ether_divisible (b t : Z) : 0 <= t <= 18 -> (b * ether) mod 2 ^ t = 0.
Proof.
  intros Ht. apply Z.mod_divide; [apply Z.pow_nonzero; lia|].
  exists (b * 5 ^ 18 * 2 ^ (18 - t)).
  rewrite <- Z.mul_assoc, <- Z.pow_add_r by lia.
  replace (18 - t + t) with 18 by lia.
  replace ether with (5 ^ 18 * 2 ^ 18) by reflexivity. ring.
Qed.

(** ** The four ways an iteration can go *)

Ltac run_dispatch :=
  unfold run_iteration, iteration, tier_rejected, eligible, stored, start,
    sendError, sendSuccess, send, callSendTx, lookup_timeout, store_timeout,
    Lock, Unlock, emit, mbind, M_bind, mret, M_ret in *;
  cbn [timeouts conns events app fst snd] in *.

Lemma run_rejected (fl : Flags) (env : Env) (msg : Msg) (tm : gmap string Z) :
  tier_rejected fl msg = true ->
  run_iteration fl env msg tm =
    let r := ReplyError "Invalid funding tier requested" in
    (after_send (WriteJSON env r),
     {| timeouts := tm; conns := []; events := [EvSend r] |}).
Proof. intros Hrej. run_dispatch. rewrite Hrej. reflexivity. Qed.

Lemma run_limited (fl : Flags) (env : Env) (msg : Msg) (tm : gmap string Z) :
  tier_rejected fl msg = false ->
  eligible tm (URL msg) (now_check env) = false ->
  run_iteration fl env msg tm =
    let r := ReplyError
               (PrettyDuration env (Until (stored tm (URL msg)) (now_reply env))
                  +:+ " left until next allowance") in
    (after_send (WriteJSON env r),
     {| timeouts := tm; conns := [];
        events := [EvLock; EvLookup (URL msg); EvUnlock; EvSend r] |}).
Proof.
  intros Hrej Hel. run_dispatch. rewrite Hrej. run_dispatch.
  rewrite Hel. reflexivity.
Qed.

Lemma run_failed (fl : Flags) (env : Env) (msg : Msg) (tm : gmap string Z)
  (err : string) :
  tier_rejected fl msg = false ->
  eligible tm (URL msg) (now_check env) = true ->
  SendTx env (amount fl (Tier msg)) (URL msg) = Some err ->
  run_iteration fl env msg tm =
    (after_send (WriteJSON env (ReplyError err)),
     {| timeouts := tm; conns := [];
        events := [EvLock; EvLookup (URL msg);
                   EvSendTx (amount fl (Tier msg)) (URL msg);
                   EvUnlock; EvSend (ReplyError err)] |}).
Proof.
  intros Hrej Hel Htx. run_dispatch. rewrite Hrej. run_dispatch.
  rewrite Hel. run_dispatch. rewrite Htx. reflexivity.
Qed.

Lemma run_funded (fl : Flags) (env : Env) (msg : Msg) (tm : gmap string Z) :
  tier_rejected fl msg = false ->
  eligible tm (URL msg) (now_check env) = true ->
  SendTx env (amount fl (Tier msg)) (URL msg) = None ->
  run_iteration fl env msg tm =
    let c := cooldown fl (Tier msg) in
    let t := Add (now_commit env) (GoInt.sub c (grace c)) in
    let r := ReplySuccess
               ("Funding request accepted for Faucet into " +:+ URL msg) in
    (after_send (WriteJSON env r),
     {| timeouts := <[URL msg := t]> tm; conns := [];
        events := [EvLock; EvLookup (URL msg);
                   EvSendTx (amount fl (Tier msg)) (URL msg);
                   EvStore (URL msg) t; EvUnlock; EvSend r] |}).
Proof.
  intros Hrej Hel Htx. run_dispatch. rewrite Hrej. run_dispatch.
  rewrite Hel. run_dispatch. rewrite Htx. reflexivity.
Qed.

Lemma valid_not_rejected (fl : Flags) (msg : Msg) :
  valid_tier fl (Tier msg) -> tier_rejected fl msg = false.
Proof. unfold valid_tier, tier_rejected. intros H. apply Z.leb_gt. exact H. Qed.

(** Case analysis of an iteration along the source's branches. *)
Ltac iteration_cases fl env msg tm :=
  let Hrej := fresh "Hrej" in
  let Hel := fresh "Hel" in
  let Htx := fresh "Htx" in
  destruct (tier_rejected fl msg) eqn:Hrej;
  [ rewrite (run_rejected fl env msg tm Hrej)
  | destruct (eligible tm (URL msg) (now_check env)) eqn:Hel;
    [ destruct (SendTx env (amount fl (Tier msg)) (URL msg)) eqn:Htx;
      [ rewrite (run_failed fl env msg tm _ Hrej Hel Htx)
      | rewrite (run_funded fl env msg tm Hrej Hel Htx) ]
    | rewrite (run_limited fl env msg tm Hrej Hel) ] ].

Lemma serve_step (fl : Flags) (env : Env) (msg : Msg)
  (rest : list (option Msg * Env)) (tm : gmap string Z) :
  serve fl ((Some msg, env) :: rest) (start tm) =
    match flow_of fl env msg tm with
    | Continue => serve fl rest (snd (run_iteration fl env msg tm))
    | Return => (tt, snd (run_iteration fl env msg tm))
    end.
Proof.
  unfold flow_of, run_iteration. cbn [serve]. unfold mbind, M_bind.
  destruct (iteration fl env msg (start tm)) as [[|] w]; reflexivity.
Qed.

(** ** The registry of connections *)

Lemma iteration_conns (fl : Flags) (env : Env) (msg : Msg) (w : World) :
  conns (snd (iteration fl env msg w)) = conns w.
Proof.
  unfold iteration, sendError, sendSuccess, send, callSendTx, lookup_timeout,
    store_timeout, Lock, Unlock, emit, mbind, M_bind, mret, M_ret.
  destruct (GoInt.uint64 (tiersFlag fl) <=? Tier msg); [reflexivity |].
  cbn [timeouts conns events fst snd].
  destruct (After (now_check env) (default 0 (timeouts w !! URL msg)));
    [| reflexivity].
  destruct (SendTx env (amount fl (Tier msg)) (URL msg)); reflexivity.
Qed.

Lemma serve_conns (fl : Flags) (reqs : list (option Msg * Env)) (w : World) :
  conns (snd (serve fl reqs w)) = conns w.
Proof.
  revert w. induction reqs as [| [[msg |] env] rest IH]; intros w;
    try reflexivity.
  cbn [serve]. unfold mbind, M_bind.
  pose proof (iteration_conns fl env msg w) as Hc.
  destruct (iteration fl env msg w) as [[|] w']; cbn [snd] in Hc.
  - rewrite IH. exact Hc.
  - exact Hc.
Qed.

Lemma remove_first_last (c : nat) (l : list nat) :
  ~ In c l -> remove_first c (l ++ [c]) = l.
Proof.
  induction l as [| x l IH]; intros Hnin; cbn.
  - now rewrite Nat.eqb_refl.
  - destruct (Nat.eqb_spec x c) as [-> | Hne].
    + exfalso. apply Hnin. now left.
    + f_equal. apply IH. intros Hin. apply Hnin. now right.
Qed.

(** X11: whatever the client sends, a connection that was not registered
    before [OnWebsocket] is not registered after it, the other entries are
    kept, and the last thing the worker does is close the connection. *)
Lemma OnWebsocket_deregisters (fl : Flags) (c : nat)
  (reqs : list (option Msg * Env)) (w : World) :
  ~ In c (conns w) ->
  conns (snd (OnWebsocket fl c reqs w)) = conns w
  /\ List.last (events (snd (OnWebsocket fl c reqs w))) EvLock = EvClose.
Proof.
  intros Hnin. unfold OnWebsocket, Lock, Unlock, register, deregister, emit,
    mbind, M_bind.
  cbn [timeouts conns events fst snd].
  match goal with
  | |- context [serve fl reqs ?w0] =>
      pose proof (serve_conns fl reqs w0) as Hc;
      destruct (serve fl reqs w0) as [[] w1]
  end.
  cbn [snd conns] in Hc. cbn [timeouts conns events fst snd].
  split.
  - rewrite Hc. apply remove_first_last. exact Hnin.
  - apply List.last_last.
Qed.

(** ** C1: the eligibility decision *)

(** C1, as stated, fails at the boundary: after a funding at tier 0
    committed at [an_instant], a request for the same identifier at exactly
    the stored next-eligible-time is allowed by the specification's rule
    and refused by the dispatcher, which asks for [time.Now().After]. *)
Lemma C1_boundary_counterexample :
  spec_allowed
    (timeouts_after (default_flags 2) (env_at an_instant None)
       (request "a" 0) ∅)
    "a"
    (an_instant + (cooldown (default_flags 2) 0
                   - grace (cooldown (default_flags 2) 0))) = true
  /\ reaches_submitter
       (trace_of (default_flags 2)
          (env_at (an_instant + (cooldown (default_flags 2) 0
                                 - grace (cooldown (default_flags 2) 0)))
             None)
          (request "a" 0)
          (timeouts_after (default_flags 2) (env_at an_instant None)
             (request "a" 0) ∅)) = false.
Proof. split; vm_compute; reflexivity. Qed.

(** C1, amended: a request with a valid tier reaches the submitter exactly
    when the current time is strictly after the identifier's stored
    next-eligible-time, a missing entry reading as the zero time.  After a
    successful funding committed at [now_commit], a later request for the
    same identifier is allowed exactly when its clock reading is strictly
    after [now_commit + cooldown - grace]: it is refused one nanosecond
    before that instant and at that instant, and allowed from one
    nanosecond after it. *)
Theorem C1_eligibility_strictly_after
  (fl : Flags) (env : Env) (msg : Msg) (tm : gmap string Z) :
  valid_tier fl (Tier msg) ->
  (reaches_submitter (trace_of fl env msg tm) = true
     <-> stored tm (URL msg) < now_check env)
  /\ (stored tm (URL msg) < now_check env ->
      SendTx env (amount fl (Tier msg)) (URL msg) = None ->
      forall (env' : Env) (msg' : Msg),
        URL msg' = URL msg ->
        valid_tier fl (Tier msg') ->
        reaches_submitter
          (trace_of fl env' msg' (timeouts_after fl env msg tm))
        = (now_commit env
           + (cooldown fl (Tier msg) - grace (cooldown fl (Tier msg)))
           <? now_check env')).
Proof.
  intros Hvalid.
  pose proof (valid_not_rejected fl msg Hvalid) as Hnr.
  assert (Hreach : forall env0 msg0 tm0,
             tier_rejected fl msg0 = false ->
             reaches_submitter (trace_of fl env0 msg0 tm0)
             = eligible tm0 (URL msg0) (now_check env0)).
  { intros env0 msg0 tm0 H0. unfold trace_of.
    iteration_cases fl env0 msg0 tm0; try discriminate; reflexivity. }
  split.
  - rewrite (Hreach env msg tm Hnr). unfold eligible, After.
    apply Z.ltb_lt.
  - intros Hlt Htx env' msg' Hurl Hvalid'.
    rewrite (Hreach env' msg' _ (valid_not_rejected fl msg' Hvalid')).
    unfold timeouts_after.
    assert (Hel : eligible tm (URL msg) (now_check env) = true)
      by (apply Z.ltb_lt; exact Hlt).
    rewrite (run_funded fl env msg tm Hnr Hel Htx).
    cbn [snd timeouts]. unfold eligible, stored, After, Add.
    rewrite Hurl, lookup_insert_eq. cbn [default].
    rewrite sub_grace by (apply int64_in_range). reflexivity.
Qed.

Lemma C1_eligibility_witness :
  valid_tier (default_flags 2) (Tier (request "a" 0))
  /\ reaches_submitter
       (trace_of (default_flags 2)
          (env_at (an_instant + 1435 * Minute) None) (request "a" 0)
          (timeouts_after (default_flags 2) (env_at an_instant None)
             (request "a" 0) ∅)) = false
  /\ reaches_submitter
       (trace_of (default_flags 2)
          (env_at (an_instant + 1435 * Minute + 1) None) (request "a" 0)
          (timeouts_after (default_flags 2) (env_at an_instant None)
             (request "a" 0) ∅)) = true.
Proof.
  assert (Hv : valid_tier (default_flags 2) (Tier (request "a" 0)))
    by (vm_compute; reflexivity).
  destruct (C1_eligibility_strictly_after (default_flags 2)
              (env_at an_instant None) (request "a" 0) ∅ Hv) as [_ Hb].
  assert (Hlt : stored ∅ (URL (request "a" 0))
                < now_check (env_at an_instant None))
    by (vm_compute; reflexivity).
  split; [exact Hv | split].
  - rewrite (Hb Hlt eq_refl _ _ eq_refl Hv). vm_compute. reflexivity.
  - rewrite (Hb Hlt eq_refl _ _ eq_refl Hv). vm_compute. reflexivity.
Defined.

(** ** C2: the scope of [faucet.lock] *)

(** C2, as stated, fails: in the iteration that funds identifier "a" the
    call to [SendTx] happens while the worker holds [faucet.lock], taken on
    line 137 and given back only on line 150 or 163. *)
Lemma C2_lock_held_counterexample :
  all_events SendTx_without_lock false
    (trace_of (default_flags 2) (env_at an_instant None) (request "a" 0) ∅)
  = false.
Proof. vm_compute. reflexivity. Qed.

(** C2, amended: in every iteration, every call to the transaction
    submitter happens while the lock taken for the eligibility check is
    still held; the lock is taken at most once in the iteration, every
    access to the rate-limiter map happens under it, it is released before
    any reply is written and it is free when the iteration ends.  The
    submitter is called exactly when the tier is valid and the identifier
    eligible. *)
Theorem C2_lock_held_across_submission
  (fl : Flags) (env : Env) (msg : Msg) (tm : gmap string Z) :
  all_events SendTx_under_lock false (trace_of fl env msg tm) = true
  /\ all_events limiter_under_lock false (trace_of fl env msg tm) = true
  /\ all_events Send_without_lock false (trace_of fl env msg tm) = true
  /\ held_at_end (trace_of fl env msg tm) = false
  /\ (count_Lock (trace_of fl env msg tm) <= 1)%nat
  /\ reaches_submitter (trace_of fl env msg tm)
     = negb (tier_rejected fl msg) && eligible tm (URL msg) (now_check env).
Proof.
  unfold trace_of.
  iteration_cases fl env msg tm; cbn; repeat split; auto.
Qed.

(** ** C3: the submitted amount *)

(** C3, as stated, fails for a base payout that is not a whole number: with
    [faucet.amount = 1.5] the amount submitted at tier 0 is [10^18] units,
    not [1.5 * 10^18]. *)
Lemma C3_fractional_payout_counterexample :
  ~ (inject_Z (amount (flags_with_payout 2 3 (-1)) 0)
     == spec_payout (float_value (payoutFlag (flags_with_payout 2 3 (-1)))) 0)%Q.
Proof. vm_compute. discriminate. Qed.

(** C3, amended: for every tier below a tier count that is a non-negative
    [int], an eligible request submits exactly one transaction, for
    [trunc(basePayout) * 10^18 * 5^t / 2^t] token units, where [trunc] is
    the conversion of the configured float to [int64] and the division is
    the integer division of [math/big]; up to tier 18 that division leaves
    no remainder. *)
Theorem C3_submitted_amount
  (fl : Flags) (env : Env) (msg : Msg) (tm : gmap string Z) :
  tier_in_range fl (Tier msg) ->
  eligible tm (URL msg) (now_check env) = true ->
  List.filter is_SendTx (trace_of fl env msg tm)
  = [EvSendTx
       ((Float64.to_int64 (payoutFlag fl) * ether * 5 ^ Tier msg)
        / 2 ^ Tier msg)
       (URL msg)]
  /\ (Tier msg <= 18 ->
      amount fl (Tier msg) * 2 ^ Tier msg
      = Float64.to_int64 (payoutFlag fl) * ether * 5 ^ Tier msg).
Proof.
  intros Hin Hel.
  pose proof (valid_not_rejected fl msg (tier_in_range_valid fl _ Hin)) as Hnr.
  pose proof (amount_in_range fl (Tier msg) Hin) as Ham.
  split.
  - unfold trace_of.
    destruct (SendTx env (amount fl (Tier msg)) (URL msg)) eqn:Htx.
    + rewrite (run_failed fl env msg tm _ Hnr Hel Htx). cbn. now rewrite Ham.
    + rewrite (run_funded fl env msg tm Hnr Hel Htx). cbn. now rewrite Ham.
  - intros H18. rewrite Ham.
    destruct Hin as [[H0 _] _].
    assert (H2 : 2 ^ Tier msg <> 0) by (apply Z.pow_nonzero; lia).
    pose proof (ether_divisible (Float64.to_int64 (payoutFlag fl)) (Tier msg)
                  ltac:(lia)) as Hdiv.
    apply Z.mod_divide in Hdiv; [|exact H2].
    destruct Hdiv as [k Hk].
    rewrite Hk.
    replace (k * 2 ^ Tier msg * 5 ^ Tier msg)
      with (k * 5 ^ Tier msg * 2 ^ Tier msg) by ring.
    rewrite Z.div_mul by exact H2. reflexivity.
Qed.

Lemma C3_submitted_amount_witness :
  tier_in_range (flags_with_payout 2 3 (-1)) (Tier (request "a" 1))
  /\ List.filter is_SendTx
       (trace_of (flags_with_payout 2 3 (-1)) (env_at an_instant None)
          (request "a" 1) ∅)
     = [EvSendTx 2500000000000000000 "a"].
Proof.
  assert (Hin : tier_in_range (flags_with_payout 2 3 (-1))
                  (Tier (request "a" 1)))
    by (vm_compute; repeat split; discriminate).
  assert (Hel : eligible ∅ (URL (request "a" 1))
                  (now_check (env_at an_instant None)) = true)
    by (vm_compute; reflexivity).
  split; [exact Hin|].
  destruct (C3_submitted_amount (flags_with_payout 2 3 (-1))
              (env_at an_instant None) (request "a" 1) ∅ Hin Hel)
    as [Htr _].
  rewrite Htr. vm_compute. reflexivity.
Defined.

(** ** C4: a failed submission *)

(** C4: when the submission fails with message [err], the map of stored
    next-eligible-times is the one the iteration started with, the only
    reply written is the error reply carrying [err], the lock has been
    released before it is written, and once that reply is written the loop
    goes on to the next request of the connection. *)
Theorem C4_failed_submission
  (fl : Flags) (env : Env) (msg : Msg) (tm : gmap string Z) (err : string)
  (rest : list (option Msg * Env)) :
  valid_tier fl (Tier msg) ->
  stored tm (URL msg) < now_check env ->
  SendTx env (amount fl (Tier msg)) (URL msg) = Some err ->
  timeouts_after fl env msg tm = tm
  /\ trace_of fl env msg tm
     = [EvLock; EvLookup (URL msg); EvSendTx (amount fl (Tier msg)) (URL msg);
        EvUnlock; EvSend (ReplyError err)]
  /\ (WriteJSON env (ReplyError err) = true ->
      flow_of fl env msg tm = Continue
      /\ serve fl ((Some msg, env) :: rest) (start tm)
         = serve fl rest (snd (run_iteration fl env msg tm))).
Proof.
  intros Hvalid Hlt Htx.
  pose proof (valid_not_rejected fl msg Hvalid) as Hnr.
  assert (Hel : eligible tm (URL msg) (now_check env) = true)
    by (apply Z.ltb_lt; exact Hlt).
  pose proof (run_failed fl env msg tm err Hnr Hel Htx) as Hrun.
  unfold timeouts_after, trace_of.
  rewrite serve_step. unfold flow_of. rewrite Hrun. cbn [fst snd timeouts events].
  split; [reflexivity | split; [reflexivity |]].
  intros Hw. rewrite Hw. split; reflexivity.
Qed.

Lemma C4_failed_submission_witness :
  valid_tier (default_flags 2) (Tier (request "a" 1))
  /\ timeouts_after (default_flags 2) (env_at an_instant (Some "nonce too low"))
       (request "a" 1) {["a" := 1000]} = {["a" := 1000]}
  /\ flow_of (default_flags 2) (env_at an_instant (Some "nonce too low"))
       (request "a" 1) {["a" := 1000]} = Continue.
Proof.
  assert (Hv : valid_tier (default_flags 2) (Tier (request "a" 1)))
    by (vm_compute; reflexivity).
  assert (Hlt : stored {["a" := 1000]} (URL (request "a" 1))
                < now_check (env_at an_instant (Some "nonce too low")))
    by (vm_compute; reflexivity).
  destruct (C4_failed_submission (default_flags 2)
              (env_at an_instant (Some "nonce too low")) (request "a" 1)
              {["a" := 1000]} "nonce too low" [] Hv Hlt eq_refl)
    as [Htm [_ Hflow]].
  split; [exact Hv | split; [exact Htm | exact (proj1 (Hflow eq_refl))]].
Defined.

(** ** C5: the committed next-eligible-time *)



(** ** C6: the cooldown *)

(** C6, as stated, fails once the product leaves the range of a
    [Duration]: with [faucet.minutes = 1440], tier 11 asks for
    [1440 * 3^11] minutes, more nanoseconds than an [int64] holds, and the
    multiplication by [time.Minute] wraps to a negative duration. *)
Lemma C6_overflow_counterexample :
  cooldown (default_flags 12) 11 <> spec_cooldown 1440 11
  /\ cooldown (default_flags 12) 11 < 0.
Proof. vm_compute. split; [discriminate | reflexivity]. Qed.

(** C6, amended: for every tier [t] at which
    [baseCooldownMinutes * 3^t] minutes, counted in nanoseconds, fit a
    64-bit [Duration], the cooldown is exactly that many minutes, and for
    [t >= 1] it is three times the cooldown of tier [t - 1]. *)
Theorem C6_cooldown_exact (fl : Flags) (t : Z) :
  0 <= t ->
  GoInt.in_int64 (minutesFlag fl * 3 ^ t * Minute) ->
  cooldown fl t = minutesFlag fl * 3 ^ t * Minute
  /\ (1 <= t -> cooldown fl t = cooldown fl (t - 1) * 3).
Proof.
  intros Ht Hr. fold (spec_cooldown (minutesFlag fl) t) in *.
  split.
  - apply cooldown_exact; assumption.
  - intros H1.
    rewrite (cooldown_exact fl t Ht Hr).
    rewrite (cooldown_exact fl (t - 1)) by
      (try lia; apply spec_cooldown_range_pred; assumption).
    apply spec_cooldown_step. exact H1.
Qed.

Lemma C6_cooldown_witness :
  0 <= 1
  /\ GoInt.in_int64 (minutesFlag (default_flags 2) * 3 ^ 1 * Minute)
  /\ cooldown (default_flags 2) 1 = 4320 * Minute.
Proof.
  assert (Hr : GoInt.in_int64 (minutesFlag (default_flags 2) * 3 ^ 1 * Minute))
    by (vm_compute; split; discriminate).
  split; [lia | split; [exact Hr |]].
  rewrite (proj1 (C6_cooldown_exact (default_flags 2) 1 ltac:(lia) Hr)).
  vm_compute. reflexivity.
Defined.

(** ** C7: a tier out of range *)

(** C7, as stated, fails on the text of the reply: the error the
    dispatcher sends starts with a capital letter. *)
Lemma C7_error_text_counterexample :
  trace_of (default_flags 2) (env_at an_instant None) (request "a" 2) ∅
  <> [EvSend (ReplyError spec_tier_error)].
Proof. vm_compute. discriminate. Qed.

(** C7, amended: for every request whose tier is at or above a tier count
    that is a non-negative [int], the only thing the iteration does is to
    write the error reply "Invalid funding tier requested": the lock is not
    taken, the rate-limiter map is neither read nor written, no
    transaction is submitted, and once the reply is written the loop goes
    on to the next request of the connection. *)
Theorem C7_invalid_tier
  (fl : Flags) (env : Env) (msg : Msg) (tm : gmap string Z)
  (rest : list (option Msg * Env)) :
  0 <= tiersFlag fl <= GoInt.max_int64 ->
  tiersFlag fl <= Tier msg ->
  trace_of fl env msg tm
  = [EvSend (ReplyError "Invalid funding tier requested")]
  /\ touches_limiter (trace_of fl env msg tm) = false
  /\ reaches_submitter (trace_of fl env msg tm) = false
  /\ timeouts_after fl env msg tm = tm
  /\ (WriteJSON env (ReplyError "Invalid funding tier requested") = true ->
      flow_of fl env msg tm = Continue
      /\ serve fl ((Some msg, env) :: rest) (start tm)
         = serve fl rest (snd (run_iteration fl env msg tm))).
Proof.
  intros Htiers Hge.
  assert (Hrej : tier_rejected fl msg = true).
  { unfold tier_rejected. rewrite uint64_id by exact Htiers.
    apply Z.leb_le. exact Hge. }
  pose proof (run_rejected fl env msg tm Hrej) as Hrun. cbv zeta in Hrun.
  unfold timeouts_after, trace_of.
  rewrite serve_step. unfold flow_of. rewrite Hrun.
  cbn [fst snd timeouts events].
  split; [reflexivity | split; [reflexivity | split; [reflexivity |]]].
  split; [reflexivity |].
  intros Hw. rewrite Hw. split; reflexivity.
Qed.

Lemma C7_invalid_tier_witness :
  0 <= tiersFlag (default_flags 2) <= GoInt.max_int64
  /\ tiersFlag (default_flags 2) <= Tier (request "a" 2)
  /\ trace_of (default_flags 2) (env_at an_instant None) (request "a" 2)
       {["a" := 1000]}
     = [EvSend (ReplyError "Invalid funding tier requested")]
  /\ flow_of (default_flags 2) (env_at an_instant None) (request "a" 2)
       {["a" := 1000]} = Continue.
Proof.
  assert (H1 : 0 <= tiersFlag (default_flags 2) <= GoInt.max_int64)
    by (vm_compute; split; discriminate).
  assert (H2 : tiersFlag (default_flags 2) <= Tier (request "a" 2))
    by (vm_compute; discriminate).
  destruct (C7_invalid_tier (default_flags 2) (env_at an_instant None)
              (request "a" 2) {["a" := 1000]} [] H1 H2)
    as [Htr [_ [_ [_ Hflow]]]].
  split; [exact H1 | split; [exact H2 | split; [exact Htr |]]].
  exact (proj1 (Hflow eq_refl)).
Defined.

(** ** C8: stored times move forward *)




(** ** C9: the ratio between consecutive tiers *)

(** C9, as stated, fails from tier 19 on: [2^19] does not divide
    [10^18 * 5^19], the integer division drops the remainder, and twice
    the payout of tier 19 is one unit short of five times the payout of
    tier 18. *)
Lemma C9_ratio_counterexample :
  tier_in_range (default_flags 20) 19
  /\ 2 * amount (default_flags 20) 19 <> 5 * amount (default_flags 20) 18.
Proof. vm_compute. repeat split; discriminate. Qed.

(** C9, amended: for every tier [t >= 1] in the configured range at which
    the division by [2^t] leaves no remainder, which includes every tier
    up to 18, the payouts satisfy [2 * payout(t) = 5 * payout(t-1)]
    exactly, that is, their ratio is the rational 5/2 whenever the payout
    is not zero. *)
Theorem C9_payout_ratio (fl : Flags) (t : Z) :
  1 <= t ->
  tier_in_range fl t ->
  (Float64.to_int64 (payoutFlag fl) * ether) mod 2 ^ t = 0 ->
  2 * amount fl t = 5 * amount fl (t - 1).
Proof.
  intros H1 Hin Hmod.
  assert (Hin' : tier_in_range fl (t - 1))
    by (destruct Hin as [[? ?] ?]; repeat split; lia).
  rewrite (amount_in_range fl t Hin), (amount_in_range fl (t - 1) Hin').
  assert (H2 : 2 ^ t <> 0) by (apply Z.pow_nonzero; lia).
  assert (H2' : 2 ^ (t - 1) <> 0) by (apply Z.pow_nonzero; lia).
  apply Z.mod_divide in Hmod; [| exact H2].
  destruct Hmod as [k Hk]. rewrite Hk.
  assert (E2 : 2 ^ t = 2 * 2 ^ (t - 1)).
  { replace t with (Z.succ (t - 1)) at 1 by lia. apply Z.pow_succ_r. lia. }
  assert (E5 : 5 ^ t = 5 * 5 ^ (t - 1)).
  { replace t with (Z.succ (t - 1)) at 1 by lia. apply Z.pow_succ_r. lia. }
  replace (k * 2 ^ t * 5 ^ t) with (k * 5 ^ t * 2 ^ t) by ring.
  rewrite Z.div_mul by exact H2.
  replace (k * 2 ^ t * 5 ^ (t - 1))
    with (2 * k * 5 ^ (t - 1) * 2 ^ (t - 1)) by (rewrite E2; ring).
  rewrite Z.div_mul by exact H2'.
  rewrite E5. ring.
Qed.

Lemma C9_payout_ratio_witness :
  1 <= 1
  /\ tier_in_range (default_flags 2) 1
  /\ 2 * amount (default_flags 2) 1 = 5 * amount (default_flags 2) 0.
Proof.
  assert (Hin : tier_in_range (default_flags 2) 1)
    by (vm_compute; repeat split; discriminate).
  split; [lia | split; [exact Hin |]].
  apply (C9_payout_ratio (default_flags 2) 1 ltac:(lia) Hin).
  vm_compute. reflexivity.
Defined.

(** ** C10: only the integer part of the base payout counts *)

Lemma amount_of_fraction (tiers t : Z) : amount (flags_with_payout tiers 1 (-1)) t = 0.
Proof.
  unfold amount, Big.Div, Big.Mul, Big.NewInt.
  replace (Float64.to_int64 (payoutFlag (flags_with_payout tiers 1 (-1))))
    with 0 by (vm_compute; reflexivity).
  rewrite !Z.mul_0_l, Z.div_0_l, Z.mul_0_r; [reflexivity |].
  unfold Big.Exp. destruct (GoInt.int64 t <=? 0) eqn:E; [discriminate |].
  apply Z.leb_gt in E.
  assert (0 < 2 ^ GoInt.int64 t) by (apply Z.pow_pos_nonneg; lia). lia.
Qed.

(** C10: two configurations whose base payouts convert to the same
    [int64] submit the same amount at every tier, and behave alike in
    every iteration when their other flags agree; the amount is computed
    from the converted integer alone. *)
Theorem C10_payout_truncated
  (fl1 fl2 : Flags) (env : Env) (msg : Msg) (tm : gmap string Z) (t : Z) :
  Float64.to_int64 (payoutFlag fl1) = Float64.to_int64 (payoutFlag fl2) ->
  amount fl1 t = amount fl2 t
  /\ (tiersFlag fl1 = tiersFlag fl2 -> minutesFlag fl1 = minutesFlag fl2 ->
      run_iteration fl1 env msg tm = run_iteration fl2 env msg tm).
Proof.
  intros Htr.
  assert (Ham : forall t', amount fl1 t' = amount fl2 t')
    by (intros t'; unfold amount; rewrite Htr; reflexivity).
  split; [apply Ham |].
  intros Htiers Hmin.
  unfold run_iteration, iteration, cooldown.
  rewrite Htiers, Hmin, Ham. reflexivity.
Qed.

Lemma C10_payout_truncated_witness :
  Float64.to_int64 (payoutFlag (flags_with_payout 2 3 (-1)))
  = Float64.to_int64 (payoutFlag (default_flags 2))
  /\ amount (flags_with_payout 2 3 (-1)) 1 = amount (default_flags 2) 1
  /\ amount (flags_with_payout 2 1 (-1)) 1 = 0.
Proof.
  assert (Htr : Float64.to_int64 (payoutFlag (flags_with_payout 2 3 (-1)))
                = Float64.to_int64 (payoutFlag (default_flags 2)))
    by (vm_compute; reflexivity).
  split; [exact Htr | split].
  - exact (proj1 (C10_payout_truncated (flags_with_payout 2 3 (-1))
                    (default_flags 2) (env_at an_instant None)
                    (request "a" 1) ∅ 1 Htr)).
  - vm_compute. reflexivity.
Defined.

(** * Further properties of the code *)

(** ** An iteration in any world *)

(** An iteration reads nothing of the world but the map: from any world
    it appends the trace it has from the bare map, and leaves the
    registry alone. *)
Lemma iteration_frame (fl : Flags) (env : Env) (msg : Msg) (w : World) :
  iteration fl env msg w =
    (flow_of fl env msg (timeouts w),
     {| timeouts := timeouts_after fl env msg (timeouts w);
        conns := conns w;
        events := events w ++ trace_of fl env msg (timeouts w) |}).
Proof.
  unfold flow_of, timeouts_after, trace_of, run_iteration, start, iteration,
    sendError, sendSuccess, send, callSendTx, lookup_timeout, store_timeout,
    Lock, Unlock, emit, mbind, M_bind, mret, M_ret.
  destruct (GoInt.uint64 (tiersFlag fl) <=? Tier msg); [reflexivity |].
  cbn [timeouts conns events fst snd app].
  destruct (After (now_check env) (default 0 (timeouts w !! URL msg))).
  - destruct (SendTx env (amount fl (Tier msg)) (URL msg));
      cbn [timeouts conns events fst snd app];
      rewrite <- !app_assoc; reflexivity.
  - cbn [timeouts conns events fst snd app].
    rewrite <- !app_assoc. reflexivity.
Qed.

(** The trace of an iteration, branch by branch. *)
Lemma trace_cases (fl : Flags) (env : Env) (msg : Msg) (tm : gmap string Z) :
  exists (pre : list Event) (r : Reply),
    trace_of fl env msg tm = pre ++ [EvSend r]
    /\ replies pre = []
    /\ flow_of fl env msg tm = after_send (WriteJSON env r)
    /\ all_events lock_rules false (pre ++ [EvSend r]) = true
    /\ fold_left lock_step (pre ++ [EvSend r]) false = false.
Proof.
  unfold trace_of, flow_of.
  iteration_cases fl env msg tm; cbn [fst snd events].
  - exists [], (ReplyError "Invalid funding tier requested"). now cbn.
  - eexists [_; _; _; _], _. cbn. repeat split; reflexivity.
  - eexists [_; _; _; _; _], _. cbn. repeat split; reflexivity.
  - eexists [_; _; _], _. cbn. repeat split; reflexivity.
Qed.

Lemma replies_app (tr1 tr2 : list Event) :
  replies (tr1 ++ tr2) = replies tr1 ++ replies tr2.
Proof.
  induction tr1 as [| e tr1 IH]; [reflexivity |].
  destruct e; cbn [app replies]; rewrite IH; reflexivity.
Qed.

Lemma Until_in_range (t now : Z) :
  GoInt.in_int64 (t - now) -> Until t now = t - now.
Proof.
  unfold GoInt.in_int64, Until. intros H. lia.
Qed.

(** ** The iteration, beyond the claims *)

(** X1: a request with a valid tier that arrives when the clock is not
    yet past the identifier's stored time changes nothing in the map,
    submits nothing, and is answered, after the lock is released, with the
    error "<d> left until next allowance", [d] being the formatted time
    from a fresh clock reading to the stored time (the difference itself
    when it fits a [Duration]). *)
Theorem X1_rate_limited_request
  (fl : Flags) (env : Env) (msg : Msg) (tm : gmap string Z) :
  valid_tier fl (Tier msg) ->
  now_check env <= stored tm (URL msg) ->
  timeouts_after fl env msg tm = tm
  /\ trace_of fl env msg tm
     = [EvLock; EvLookup (URL msg); EvUnlock;
        EvSend (ReplyError
                  (PrettyDuration env
                     (Until (stored tm (URL msg)) (now_reply env))
                   +:+ " left until next allowance"))]
  /\ (GoInt.in_int64 (stored tm (URL msg) - now_reply env) ->
      Until (stored tm (URL msg)) (now_reply env)
      = stored tm (URL msg) - now_reply env).
Proof.
  intros Hvalid Hle.
  pose proof (valid_not_rejected fl msg Hvalid) as Hnr.
  assert (Hel : eligible tm (URL msg) (now_check env) = false)
    by (apply Z.ltb_ge; exact Hle).
  unfold timeouts_after, trace_of.
  rewrite (run_limited fl env msg tm Hnr Hel). cbn [snd timeouts events].
  split; [reflexivity | split; [reflexivity |]].
  apply Until_in_range.
Qed.

Lemma X1_rate_limited_request_witness :
  valid_tier (default_flags 2) (Tier (request "a" 0))
  /\ now_check (env_at 900 None) <= stored {["a" := 1000]} (URL (request "a" 0))
  /\ replies (trace_of (default_flags 2) (env_at 900 None) (request "a" 0)
                {["a" := 1000]})
     = [ReplyError " left until next allowance"].
Proof.
  assert (Hv : valid_tier (default_flags 2) (Tier (request "a" 0)))
    by (vm_compute; reflexivity).
  assert (Hle : now_check (env_at 900 None)
                <= stored {["a" := 1000]} (URL (request "a" 0)))
    by (vm_compute; discriminate).
  destruct (X1_rate_limited_request (default_flags 2) (env_at 900 None)
              (request "a" 0) {["a" := 1000]} Hv Hle) as [_ [Htr _]].
  split; [exact Hv | split; [exact Hle |]].
  rewrite Htr. reflexivity.
Defined.

(** X2: whatever an iteration does, the entries of the identifiers other
    than the requested one are what they were, present or absent. *)
Theorem X2_other_identifiers_untouched
  (fl : Flags) (env : Env) (msg : Msg) (tm : gmap string Z) (url : string) :
  url <> URL msg ->
  timeouts_after fl env msg tm !! url = tm !! url.
Proof.
  intros Hne. unfold timeouts_after.
  iteration_cases fl env msg tm; cbn [snd timeouts]; try reflexivity.
  apply lookup_insert_ne. congruence.
Qed.

Lemma X2_other_identifiers_untouched_witness :
  "b" <> URL (request "a" 0)
  /\ timeouts_after (default_flags 2) (env_at an_instant None)
       (request "a" 0) {["b" := 1000]} !! "b" = Some 1000.
Proof.
  assert (Hne : "b" <> URL (request "a" 0)) by discriminate.
  split; [exact Hne |].
  rewrite (X2_other_identifiers_untouched (default_flags 2)
             (env_at an_instant None) (request "a" 0) {["b" := 1000]} "b" Hne).
  vm_compute. reflexivity.
Defined.

(** X3: every iteration writes exactly one reply, as its last action, and
    goes on to the next request exactly when that write succeeded. *)
Theorem X3_one_reply_per_iteration
  (fl : Flags) (env : Env) (msg : Msg) (tm : gmap string Z) :
  exists r : Reply,
    replies (trace_of fl env msg tm) = [r]
    /\ List.last (trace_of fl env msg tm) EvLock = EvSend r
    /\ (flow_of fl env msg tm = Continue <-> WriteJSON env r = true).
Proof.
  destruct (trace_cases fl env msg tm) as (pre & r & Htr & Hpre & Hflow & _).
  exists r. rewrite Htr, replies_app, Hpre, List.last_last, Hflow.
  split; [reflexivity | split; [reflexivity |]].
  destruct (WriteJSON env r); cbn; split; intros H; congruence.
Qed.

(** X4: a success reply is only ever written for a request with a valid
    tier whose identifier was eligible and whose transaction the submitter
    accepted, after the new next-eligible-time has been stored; its text
    names the identifier. *)
Theorem X4_success_means_funded
  (fl : Flags) (env : Env) (msg : Msg) (tm : gmap string Z) (s : string) :
  replies (trace_of fl env msg tm) = [ReplySuccess s] ->
  s = "Funding request accepted for Faucet into " +:+ URL msg
  /\ valid_tier fl (Tier msg)
  /\ stored tm (URL msg) < now_check env
  /\ SendTx env (amount fl (Tier msg)) (URL msg) = None
  /\ timeouts_after fl env msg tm !! URL msg
     = Some (now_commit env
             + GoInt.sub (cooldown fl (Tier msg))
                 (grace (cooldown fl (Tier msg)))).
Proof.
  unfold trace_of, timeouts_after.
  iteration_cases fl env msg tm; cbn [snd events timeouts replies];
    intros H; try discriminate.
  injection H as <-.
  split; [reflexivity | split; [| split; [| split]]].
  - unfold valid_tier. unfold tier_rejected in Hrej.
    apply Z.leb_gt. exact Hrej.
  - apply Z.ltb_lt. exact Hel.
  - reflexivity.
  - apply lookup_insert_eq.
Qed.

Lemma X4_success_means_funded_witness :
  replies (trace_of (default_flags 2) (env_at an_instant None)
             (request "a" 0) ∅)
  = [ReplySuccess "Funding request accepted for Faucet into a"]
  /\ SendTx (env_at an_instant None)
       (amount (default_flags 2) (Tier (request "a" 0))) (URL (request "a" 0))
     = None.
Proof.
  assert (Hr : replies (trace_of (default_flags 2) (env_at an_instant None)
                          (request "a" 0) ∅)
               = [ReplySuccess "Funding request accepted for Faucet into a"])
    by (vm_compute; reflexivity).
  split; [exact Hr |].
  exact (proj1 (proj2 (proj2 (proj2
           (X4_success_means_funded (default_flags 2) (env_at an_instant None)
              (request "a" 0) ∅ _ Hr))))).
Defined.

(** X5: the captcha of a request is never looked at: two requests with the
    same identifier and tier are served alike in every world. *)
Theorem X5_captcha_ignored
  (fl : Flags) (env : Env) (msg msg' : Msg) (w : World) :
  URL msg = URL msg' ->
  Tier msg = Tier msg' ->
  iteration fl env msg w = iteration fl env msg' w.
Proof.
  intros Hurl Htier. unfold iteration. rewrite Hurl, Htier. reflexivity.
Qed.

Lemma X5_captcha_ignored_witness :
  iteration (default_flags 2) (env_at an_instant None)
    {| URL := "a"; Tier := 0; Captcha := "" |} (start ∅)
  = iteration (default_flags 2) (env_at an_instant None)
      {| URL := "a"; Tier := 0; Captcha := "03AGdBq24" |} (start ∅).
Proof.
  apply (X5_captcha_ignored (default_flags 2) (env_at an_instant None)
           {| URL := "a"; Tier := 0; Captcha := "" |}
           {| URL := "a"; Tier := 0; Captcha := "03AGdBq24" |} (start ∅));
    reflexivity.
Defined.

(** ** The loop of a connection *)

Lemma all_events_app (P : bool -> Event -> bool) (held : bool)
  (tr1 tr2 : list Event) :
  all_events P held (tr1 ++ tr2)
  = all_events P held tr1 && all_events P (fold_left lock_step tr1 held) tr2.
Proof.
  revert held. induction tr1 as [| e tr1 IH]; intros held; cbn.
  - reflexivity.
  - rewrite IH. now rewrite andb_assoc.
Qed.

Lemma iteration_disciplined (fl : Flags) (env : Env) (msg : Msg) (w : World) :
  disciplined w -> disciplined (snd (iteration fl env msg w)).
Proof.
  intros [Hall Hend]. unfold disciplined.
  rewrite iteration_frame. cbn [snd events].
  destruct (trace_cases fl env msg (timeouts w))
    as (pre & r & Htr & _ & _ & Hrules & Hfree).
  rewrite Htr.
  rewrite all_events_app, fold_left_app, Hall, Hend, Hrules, Hfree.
  split; reflexivity.
Qed.

Lemma serve_disciplined (fl : Flags) (reqs : list (option Msg * Env))
  (w : World) :
  disciplined w -> disciplined (snd (serve fl reqs w)).
Proof.
  revert w. induction reqs as [| [[msg |] env] rest IH]; intros w Hw;
    try exact Hw.
  cbn [serve]. unfold mbind, M_bind.
  pose proof (iteration_disciplined fl env msg w Hw) as Hit.
  destruct (iteration fl env msg w) as [[|] w']; cbn [snd] in *.
  - apply IH. exact Hit.
  - exact Hit.
Qed.

(** X6: a read error ends the loop: whatever the client would have sent
    after it is not served. *)
Theorem X6_read_error_ends_loop
  (fl : Flags) (pre post : list (option Msg * Env)) (env : Env) (w : World) :
  serve fl (pre ++ (None, env) :: post) w = serve fl pre w.
Proof.
  revert w. induction pre as [| [[msg |] env'] pre IH]; intros w;
    try reflexivity.
  cbn [app serve]. unfold mbind, M_bind.
  destruct (iteration fl env' msg w) as [[|] w']; [apply IH | reflexivity].
Qed.

(** X7: a reply that cannot be written ends the loop: the request is
    served, map update included, and nothing after it is. *)
Theorem X7_failed_write_ends_loop
  (fl : Flags) (env : Env) (msg : Msg) (rest : list (option Msg * Env))
  (w : World) :
  (forall r, WriteJSON env r = false) ->
  serve fl ((Some msg, env) :: rest) w
  = (tt, {| timeouts := timeouts_after fl env msg (timeouts w);
            conns := conns w;
            events := events w ++ trace_of fl env msg (timeouts w) |}).
Proof.
  intros Hfail. cbn [serve]. unfold mbind, M_bind.
  rewrite iteration_frame.
  destruct (trace_cases fl env msg (timeouts w)) as (pre & r & _ & _ & Hflow & _).
  rewrite Hflow, Hfail. reflexivity.
Qed.

Lemma X7_failed_write_witness :
  (forall r, WriteJSON (env_unwritable an_instant) r = false)
  /\ timeouts
       (snd (serve (default_flags 2)
               [(Some (request "a" 0), env_unwritable an_instant);
                (Some (request "b" 0), env_at an_instant None)]
               (start ∅))) !! "b" = None.
Proof.
  assert (Hf : forall r, WriteJSON (env_unwritable an_instant) r = false)
    by (intros r; reflexivity).
  split; [exact Hf |].
  rewrite (X7_failed_write_ends_loop (default_flags 2)
             (env_unwritable an_instant) (request "a" 0)
             [(Some (request "b" 0), env_at an_instant None)] (start ∅) Hf).
  vm_compute. reflexivity.
Defined.

(** X8: over the whole life of a connection, whatever the client sends and
    however the outside answers, the worker calls the submitter and touches
    the map only while it holds [faucet.lock], writes replies only while it
    does not, and has released the lock when it returns. *)
Theorem X8_connection_lock_discipline
  (fl : Flags) (c : nat) (reqs : list (option Msg * Env))
  (tm : gmap string Z) (cs : list nat) :
  all_events lock_rules false
    (events (snd (OnWebsocket fl c reqs (world tm cs)))) = true
  /\ held_at_end (events (snd (OnWebsocket fl c reqs (world tm cs)))) = false.
Proof.
  unfold OnWebsocket, Lock, Unlock, register, deregister, emit, mbind, M_bind,
    world, held_at_end.
  cbn [timeouts conns events fst snd app].
  match goal with
  | |- context [serve fl reqs ?w0] =>
      assert (Hw0 : disciplined w0) by (split; reflexivity);
      pose proof (serve_disciplined fl reqs w0 Hw0) as [Hall Hend];
      destruct (serve fl reqs w0) as [[] w1]
  end.
  cbn [snd] in Hall, Hend. cbn [timeouts conns events fst snd].
  rewrite <- !app_assoc. cbn [app].
  rewrite all_events_app, fold_left_app, Hall, Hend.
  split; reflexivity.
Qed.

Lemma serve_replies_bound (fl : Flags) (reqs : list (option Msg * Env))
  (w : World) :
  (length (replies (events (snd (serve fl reqs w))))
   <= length (replies (events w)) + length reqs)%nat
  /\ (Forall served_ok reqs ->
      length (replies (events (snd (serve fl reqs w))))
      = (length (replies (events w)) + length reqs)%nat).
Proof.
  revert w. induction reqs as [| [[msg |] env] rest IH]; intros w.
  - cbn. split; [lia | intros _; lia].
  - cbn [serve]. unfold mbind, M_bind, mret, M_ret. rewrite iteration_frame.
    destruct (trace_cases fl env msg (timeouts w))
      as (pre & r & Htr & Hpre & Hflow & _).
    rewrite Hflow, Htr.
    set (w' := {| timeouts := timeouts_after fl env msg (timeouts w);
                  conns := conns w;
                  events := events w ++ pre ++ [EvSend r] |}).
    assert (Hw' : length (replies (events w'))
                  = S (length (replies (events w)))).
    { unfold w'. cbn [events]. rewrite !replies_app, Hpre. cbn.
      rewrite length_app. cbn. lia. }
    clearbody w'.
    destruct (IH w') as [IHle IHeq].
    split.
    + destruct (WriteJSON env r); cbn [after_send snd length].
      * clear - IHle Hw'. lia.
      * clear - Hw'. lia.
    + intros Hall. inversion Hall as [| ? ? [_ Hw] Hrest]; subst.
      cbn [snd] in Hw. rewrite Hw. cbn [after_send length].
      rewrite (IHeq Hrest). clear - Hw'. lia.
  - cbn. split; [lia |].
    intros Hall. inversion Hall as [| ? ? [[x Hx] _] _]; subst. discriminate.
Qed.

(** X9: a connection gets at most one reply per request it sent, and
    exactly one per request as long as every request is read and every
    reply is written. *)
Theorem X9_one_reply_per_request
  (fl : Flags) (reqs : list (option Msg * Env)) (tm : gmap string Z) :
  Forall served_ok reqs ->
  length (replies (events (snd (serve fl reqs (start tm))))) = length reqs.
Proof.
  intros Hall.
  rewrite (proj2 (serve_replies_bound fl reqs (start tm)) Hall). reflexivity.
Qed.

Lemma X9_one_reply_per_request_witness :
  Forall served_ok
    [(Some (request "a" 0), env_at an_instant None);
     (Some (request "a" 0), env_at (an_instant + 1) None);
     (Some (request "b" 5), env_at (an_instant + 2) (Some "no funds"))]
  /\ length (replies (events (snd (serve (default_flags 2)
       [(Some (request "a" 0), env_at an_instant None);
        (Some (request "a" 0), env_at (an_instant + 1) None);
        (Some (request "b" 5), env_at (an_instant + 2) (Some "no funds"))]
       (start ∅))))) = 3%nat.
Proof.
  assert (Hall : Forall served_ok
            [(Some (request "a" 0), env_at an_instant None);
             (Some (request "a" 0), env_at (an_instant + 1) None);
             (Some (request "b" 5), env_at (an_instant + 2) (Some "no funds"))]).
  { repeat constructor; eexists; reflexivity. }
  split; [exact Hall |].
  exact (X9_one_reply_per_request (default_flags 2) _ ∅ Hall).
Defined.

Lemma never_earlier_refl (tm : gmap string Z) : never_earlier tm tm.
Proof. intros url t H. exists t. split; [exact H | lia]. Qed.

Lemma never_earlier_trans (tm1 tm2 tm3 : gmap string Z) :
  never_earlier tm1 tm2 -> never_earlier tm2 tm3 -> never_earlier tm1 tm3.
Proof.
  intros H12 H23 url t H.
  destruct (H12 url t H) as [t2 [H2 Hle2]].
  destruct (H23 url t2 H2) as [t3 [H3 Hle3]].
  exists t3. split; [exact H3 | lia].
Qed.

Lemma iteration_never_earlier (fl : Flags) (env : Env) (msg : Msg)
  (tm : gmap string Z) :
  forward_ok fl (Some msg, env) ->
  never_earlier tm (timeouts_after fl env msg tm).
Proof.
  intros [Hc Hclock] url t Hlook. cbn [snd] in Hclock. unfold timeouts_after.
  iteration_cases fl env msg tm; cbn [snd timeouts];
    try (exists t; split; [exact Hlook | lia]).
  destruct (decide (url = URL msg)) as [-> | Hne].
  - eexists. split; [apply lookup_insert_eq |].
    unfold eligible, stored, After in Hel. rewrite Hlook in Hel.
    cbn in Hel. apply Z.ltb_lt in Hel.
    unfold Add. rewrite sub_grace by (apply int64_in_range).
    pose proof (sub_grace_sign _ Hc). lia.
  - exists t. split; [| lia].
    rewrite lookup_insert_ne by congruence. exact Hlook.
Qed.

(** X10: along a whole connection, if no served request has a wrapped
    (negative) cooldown and the clock never runs backward between a check
    and its commit, no identifier's stored time is ever replaced by an
    earlier one, and no entry is ever removed. *)
Theorem X10_connection_moves_forward
  (fl : Flags) (reqs : list (option Msg * Env)) (w : World) :
  Forall (forward_ok fl) reqs ->
  never_earlier (timeouts w) (timeouts (snd (serve fl reqs w))).
Proof.
  revert w. induction reqs as [| [[msg |] env] rest IH]; intros w Hall;
    try apply never_earlier_refl.
  inversion Hall as [| ? ? Hhd Htl]; subst.
  cbn [serve]. unfold mbind, M_bind. rewrite iteration_frame.
  pose proof (iteration_never_earlier fl env msg (timeouts w) Hhd) as Hstep.
  destruct (flow_of fl env msg (timeouts w)).
  - eapply never_earlier_trans; [exact Hstep |].
    match goal with |- never_earlier _ (timeouts (snd (serve fl rest ?w'))) =>
      exact (IH w' Htl) end.
  - exact Hstep.
Qed.

Lemma X10_connection_moves_forward_witness :
  Forall (forward_ok (default_flags 2))
    [(Some (request "a" 1), env_at an_instant None);
     (None, env_at an_instant None)]
  /\ never_earlier {["a" := 1000]}
       (timeouts (snd (serve (default_flags 2)
          [(Some (request "a" 1), env_at an_instant None);
           (None, env_at an_instant None)]
          (start {["a" := 1000]})))).
Proof.
  assert (Hall : Forall (forward_ok (default_flags 2))
            [(Some (request "a" 1), env_at an_instant None);
             (None, env_at an_instant None)]).
  { repeat constructor; vm_compute; discriminate. }
  split; [exact Hall |].
  exact (X10_connection_moves_forward (default_flags 2) _
           (start {["a" := 1000]}) Hall).
Defined.

(** ** The registry *)

Lemma X11_OnWebsocket_deregisters_witness :
  ~ In 7%nat (conns (world ∅ [3%nat; 5%nat]))
  /\ conns (snd (OnWebsocket (default_flags 2) 7
                   [(Some (request "a" 0), env_at an_instant None)]
                   (world ∅ [3%nat; 5%nat])))
     = [3%nat; 5%nat].
Proof.
  assert (Hnin : ~ In 7%nat (conns (world ∅ [3%nat; 5%nat]))).
  { cbn. intros [H | [H | []]]; discriminate. }
  split; [exact Hnin |].
  exact (proj1 (OnWebsocket_deregisters (default_flags 2) 7
                  [(Some (request "a" 0), env_at an_instant None)]
                  (world ∅ [3%nat; 5%nat]) Hnin)).
Defined.

(** X12: the deferred removal takes out the first entry of the connection
    and nothing else, wherever other connections have been appended to or
    removed from the registry around it; a registry without the
    connection is left as it is. *)
Theorem X12_remove_first_exact (c : nat) (l1 l2 : list nat) :
  ~ In c l1 ->
  remove_first c (l1 ++ c :: l2) = l1 ++ l2
  /\ remove_first c l1 = l1.
Proof.
  induction l1 as [| x l1 IH]; intros Hnin; cbn.
  - rewrite Nat.eqb_refl. split; reflexivity.
  - destruct (Nat.eqb_spec x c) as [-> | Hne].
    + exfalso. apply Hnin. now left.
    + destruct IH as [IH1 IH2]; [intros Hin; apply Hnin; now right |].
      rewrite IH1, IH2. split; reflexivity.
Qed.

Lemma X12_remove_first_exact_witness :
  ~ In 7%nat [3%nat; 5%nat]
  /\ remove_first 7 ([3%nat; 5%nat] ++ 7%nat :: [9%nat; 7%nat])
     = [3%nat; 5%nat] ++ [9%nat; 7%nat].
Proof.
  assert (Hnin : ~ In 7%nat [3%nat; 5%nat]).
  { cbn. intros [H | [H | []]]; discriminate. }
  split; [exact Hnin |].
  exact (proj1 (X12_remove_first_exact 7 [3%nat; 5%nat] [9%nat; 7%nat] Hnin)).
Defined.

(** ** The tier calculator, beyond the claims *)

(** X13: with a base payout that is not negative, no tier pays less than
    the tier below it, and no tier pays a negative amount. *)
Theorem X13_amount_monotone (fl : Flags) (t : Z) :
  1 <= t ->
  tier_in_range fl t ->
  0 <= Float64.to_int64 (payoutFlag fl) ->
  0 <= amount fl (t - 1) <= amount fl t.
Proof.
  intros H1 Hin Hb.
  assert (Hin' : tier_in_range fl (t - 1))
    by (destruct Hin as [[? ?] ?]; repeat split; lia).
  rewrite (amount_in_range fl t Hin), (amount_in_range fl (t - 1) Hin').
  set (N := Float64.to_int64 (payoutFlag fl) * ether * 5 ^ (t - 1)).
  assert (HN : 0 <= N).
  { unfold N, ether.
    assert (0 < 5 ^ (t - 1)) by (apply Z.pow_pos_nonneg; lia). nia. }
  assert (H2' : 0 < 2 ^ (t - 1)) by (apply Z.pow_pos_nonneg; lia).
  assert (E2 : 2 ^ t = 2 * 2 ^ (t - 1)).
  { replace t with (Z.succ (t - 1)) at 1 by lia. apply Z.pow_succ_r. lia. }
  assert (E5 : Float64.to_int64 (payoutFlag fl) * ether * 5 ^ t = 5 * N).
  { unfold N. replace t with (Z.succ (t - 1)) at 1 by lia.
    rewrite Z.pow_succ_r by lia. ring. }
  rewrite E5, E2. split.
  - apply Z.div_pos; assumption.
  - rewrite <- (Z.div_mul_cancel_l N (2 ^ (t - 1)) 2) by lia.
    apply Z.div_le_mono; lia.
Qed.

Lemma X13_amount_monotone_witness :
  tier_in_range (default_flags 25) 20
  /\ 0 <= amount (default_flags 25) (20 - 1) <= amount (default_flags 25) 20.
Proof.
  assert (Hin : tier_in_range (default_flags 25) 20)
    by (vm_compute; repeat split; discriminate).
  split; [exact Hin |].
  apply (X13_amount_monotone (default_flags 25) 20 ltac:(lia) Hin).
  vm_compute. discriminate.
Defined.

(** X14: [int(math.Pow(3, float64(t)))] is the integer [3^t] for every
    tier from 0 to 33, the powers a binary64 mantissa holds; at tier 34 it
    is one less. *)
Theorem X14_pow3_exact_to_33 (t : Z) :
  0 <= t <= 33 ->
  pow3 t = 3 ^ t /\ pow3 34 = 3 ^ 34 - 1.
Proof.
  intros Ht. split; [apply pow3_exact; exact Ht | apply pow3_inexact_34].
Qed.

Lemma X14_pow3_exact_witness :
  0 <= 33 <= 33 /\ pow3 33 = 5559060566555523.
Proof.
  split; [lia |].
  rewrite (proj1 (X14_pow3_exact_to_33 33 ltac:(lia))). reflexivity.
Defined.

(** X15: after a funding whose cooldown [c] is not negative, the stored
    time [T] lies between the commit reading plus 287/288 of [c] and the
    commit reading plus [c], and is strictly after the commit reading when
    [c] is positive: the same identifier asking again at once is
    refused. *)
Theorem X15_commit_bounds
  (fl : Flags) (env : Env) (msg : Msg) (tm : gmap string Z) :
  valid_tier fl (Tier msg) ->
  stored tm (URL msg) < now_check env ->
  SendTx env (amount fl (Tier msg)) (URL msg) = None ->
  0 <= cooldown fl (Tier msg) ->
  exists T : Z,
    timeouts_after fl env msg tm !! URL msg = Some T
    /\ now_commit env <= T <= now_commit env + cooldown fl (Tier msg)
    /\ 287 * cooldown fl (Tier msg) <= 288 * (T - now_commit env)
    /\ (0 < cooldown fl (Tier msg) ->
        now_commit env < T
        /\ forall env', now_check env' <= now_commit env ->
             reaches_submitter
               (trace_of fl env' msg (timeouts_after fl env msg tm)) = false).
Proof.
  intros Hvalid Hlt Htx Hc.
  pose proof (valid_not_rejected fl msg Hvalid) as Hnr.
  assert (Hel : eligible tm (URL msg) (now_check env) = true)
    by (apply Z.ltb_lt; exact Hlt).
  unfold timeouts_after, trace_of.
  rewrite (run_funded fl env msg tm Hnr Hel Htx). cbn [snd timeouts].
  unfold Add. rewrite sub_grace by (apply int64_in_range).
  set (c := cooldown fl (Tier msg)) in *.
  pose proof (Z.quot_rem' c 288) as Hqr.
  pose proof (Z.rem_bound_pos c 288 Hc ltac:(lia)) as Hr.
  eexists. split; [apply lookup_insert_eq |].
  split; [lia | split; [lia |]].
  intros Hpos. split; [lia |].
  intros env' Hnow.
  assert (Hel' : eligible (<[URL msg := now_commit env + (c - c ÷ 288)]> tm)
                   (URL msg) (now_check env') = false).
  { unfold eligible, stored, After. rewrite lookup_insert_eq. cbn.
    apply Z.ltb_ge. lia. }
  rewrite (run_limited fl env' msg _ Hnr Hel'). reflexivity.
Qed.

Lemma X15_commit_bounds_witness :
  valid_tier (default_flags 2) (Tier (request "a" 1))
  /\ 0 <= cooldown (default_flags 2) (Tier (request "a" 1))
  /\ exists T : Z,
       timeouts_after (default_flags 2) (env_at an_instant None)
         (request "a" 1) ∅ !! URL (request "a" 1) = Some T
       /\ now_commit (env_at an_instant None) < T.
Proof.
  assert (Hv : valid_tier (default_flags 2) (Tier (request "a" 1)))
    by (vm_compute; reflexivity).
  assert (Hlt : stored ∅ (URL (request "a" 1))
                < now_check (env_at an_instant None))
    by (vm_compute; reflexivity).
  assert (Hc : 0 <= cooldown (default_flags 2) (Tier (request "a" 1)))
    by (vm_compute; discriminate).
  assert (Hpos : 0 < cooldown (default_flags 2) (Tier (request "a" 1)))
    by (vm_compute; reflexivity).
  split; [exact Hv | split; [exact Hc |]].
  destruct (X15_commit_bounds (default_flags 2) (env_at an_instant None)
              (request "a" 1) ∅ Hv Hlt eq_refl Hc)
    as (T & HT & _ & _ & Hstrict).
  exists T. split; [exact HT | exact (proj1 (Hstrict Hpos))].
Defined.

(** ** The periods shown on the website *)

Lemma rem_1440 (p : Z) :
  Z.rem p 1440 = Z.rem p 60 + 60 * Z.rem (p ÷ 60) 24.
Proof. change 1440 with (60 * 24). apply Z.mod_mul_r; lia. Qed.

(** X16: a period of [p] minutes is shown in days when [p] is a multiple
    of 1440, otherwise in hours when it is a multiple of 60, otherwise in
    minutes; the number shown times the unit is [p], and the unit is in the
    singular exactly when the number is 1. *)
Theorem X16_period_text (p : Z) :
  period_text p =
    if Z.rem p 1440 =? 0 then period_label (p ÷ 1440) "day"
    else if Z.rem p 60 =? 0 then period_label (p ÷ 60) "hour"
    else period_label p "min".
Proof.
  unfold period_text, GoInt.div.
  pose proof (rem_1440 p) as H1440.
  pose proof (Z.rem_bound_abs p 60 ltac:(lia)) as Hb.
  destruct (Z.eqb_spec (Z.rem p 60) 0) as [H60 | H60].
  - destruct (Z.eqb_spec (Z.rem (p ÷ 60) 24) 0) as [H24 | H24].
    + destruct (Z.eqb_spec (Z.rem p 1440) 0) as [_ | Hn]; [| lia].
      rewrite Z.quot_quot by lia. change (60 * 24) with 1440.
      destruct (Z.eqb_spec (p ÷ 1440) 1) as [E | E].
      * rewrite E. reflexivity.
      * unfold period_label.
        destruct (Z.eqb_spec (p ÷ 1440) 1); [contradiction | reflexivity].
    + destruct (Z.eqb_spec (Z.rem p 1440) 0) as [Hn | _]; [lia |].
      destruct (Z.eqb_spec (p ÷ 60) 1) as [E | E].
      * rewrite E. reflexivity.
      * unfold period_label.
        destruct (Z.eqb_spec (p ÷ 60) 1); [contradiction | reflexivity].
  - destruct (Z.eqb_spec (Z.rem p 1440) 0) as [Hn | _]; [lia |].
    destruct (Z.eqb_spec p 1) as [E | E].
    + rewrite E. reflexivity.
    + unfold period_label.
      destruct (Z.eqb_spec p 1); [contradiction | reflexivity].
Qed.

Lemma period_minutes_exact (fl : Flags) (t : Z) :
  0 <= t ->
  GoInt.in_int64 (spec_cooldown (minutesFlag fl) t) ->
  period_minutes fl t = minutesFlag fl * 3 ^ t.
Proof.
  intros Ht Hr. unfold period_minutes, GoInt.mul, spec_cooldown in *.
  destruct (Z.eq_dec (minutesFlag fl) 0) as [E | E].
  - rewrite E, !Z.mul_0_l. reflexivity.
  - assert (Hpos : 0 < 3 ^ t) by (apply Z.pow_pos_nonneg; lia).
    assert (H17 : t <= 17).
    { destruct (Z.le_gt_cases t 17) as [H | H]; [exact H | exfalso].
      assert (Hge : 3 ^ 18 <= 3 ^ t) by (apply Z.pow_le_mono_r; lia).
      change (3 ^ 18) with 387420489 in Hge.
      unfold GoInt.in_int64, GoInt.min_int64, GoInt.max_int64 in Hr.
      change Minute with 60000000000 in Hr.
      change (2 ^ 63) with 9223372036854775808 in Hr.
      nia. }
    rewrite pow3_exact by lia.
    apply int64_id.
    unfold GoInt.in_int64, GoInt.min_int64, GoInt.max_int64 in *.
    change Minute with 60000000000 in Hr.
    nia.
Qed.

(** X17: for every tier whose cooldown fits a [Duration], the period the
    website announces for the tier is the cooldown the dispatcher applies
    to it, before the grace is taken off: the same number of minutes. *)
Theorem X17_announced_period_is_cooldown (fl : Flags) (t : Z) :
  0 <= t ->
  GoInt.in_int64 (minutesFlag fl * 3 ^ t * Minute) ->
  period_minutes fl t * Minute = cooldown fl t
  /\ period_text (period_minutes fl t) = period_text (minutesFlag fl * 3 ^ t).
Proof.
  intros Ht Hr. fold (spec_cooldown (minutesFlag fl) t) in Hr.
  rewrite (period_minutes_exact fl t Ht Hr), (cooldown_exact fl t Ht Hr).
  split; reflexivity.
Qed.

Lemma X17_announced_period_witness :
  0 <= 1
  /\ GoInt.in_int64 (minutesFlag (default_flags 2) * 3 ^ 1 * Minute)
  /\ period_text (period_minutes (default_flags 2) 1) = "3 days".
Proof.
  assert (Hr : GoInt.in_int64 (minutesFlag (default_flags 2) * 3 ^ 1 * Minute))
    by (vm_compute; split; discriminate).
  split; [lia | split; [exact Hr |]].
  rewrite (proj2 (X17_announced_period_is_cooldown (default_flags 2) 1
                    ltac:(lia) Hr)).
  vm_compute. reflexivity.
Defined.

(** ** [setupRLimit] *)

(** X18: when [setupRLimit] returns, the limit it has set keeps the hard
    limit it read and has a soft limit 100 below it, provided the hard
    limit is at least 100; with a hard limit below 100 the subtraction
    wraps and the soft limit it asks for is above the hard one.  It
    returns only when both system calls succeeded. *)
Theorem X18_setupRLimit
  (Getrlimit : Result Rlimit) (Setrlimit : Rlimit -> option string)
  (r : Rlimit) :
  setupRLimit Getrlimit Setrlimit = Ok r ->
  exists r0 : Rlimit,
    Getrlimit = Ok r0
    /\ Setrlimit r = None
    /\ Max r = Max r0
    /\ (100 <= Max r0 < 2 ^ 64 -> Cur r = Max r0 - 100 /\ Cur r <= Max r)
    /\ (0 <= Max r0 < 100 ->
        Cur r = 2 ^ 64 - 100 + Max r0 /\ Max r < Cur r).
Proof.
  unfold setupRLimit. intros H.
  destruct Getrlimit as [r0 | e]; [| discriminate].
  destruct (Setrlimit _) eqn:Hset; [discriminate |].
  injection H as <-. exists r0. cbn [Cur Max].
  split; [reflexivity | split; [exact Hset | split; [reflexivity |]]].
  unfold GoInt.uint64. split; intros Hm.
  - rewrite Z.mod_small by lia. lia.
  - replace (Max r0 - 100) with (2 ^ 64 - 100 + Max r0 + (-1) * 2 ^ 64) by ring.
    rewrite Z.mod_add by lia. rewrite Z.mod_small by lia. lia.
Qed.

Lemma X18_setupRLimit_witness :
  setupRLimit (Ok {| Cur := 1024; Max := 50 |}) (fun _ => None)
  = Ok {| Cur := 2 ^ 64 - 50; Max := 50 |}
  /\ exists r0 : Rlimit,
       Ok {| Cur := 1024; Max := 50 |} = Ok r0
       /\ Max {| Cur := 2 ^ 64 - 50; Max := 50 |} = Max r0.
Proof.
  assert (H : setupRLimit (Ok {| Cur := 1024; Max := 50 |}) (fun _ => None)
              = Ok {| Cur := 2 ^ 64 - 50; Max := 50 |}) by reflexivity.
  split; [exact H |].
  destruct (X18_setupRLimit _ _ _ H) as (r0 & Hget & _ & Hmax & _).
  exists r0. split; [exact Hget | exact Hmax].
Defined.

(** ** [SendTx] *)

Section SendTxProperties.

Context {Address SignedTx : Type}.

Implicit Types (cl : Chain.Client Address SignedTx) (stx : SignedTx).

(** The transaction [SendTx] builds from a nonce and a gas price. *)
Lemma SendTx_cases cl (amt : Z) (to : string) :
  (exists e, snd (Chain.SendTx cl amt to) = Some e
             /\ List.filter Chain.is_broadcast (fst (Chain.SendTx cl amt to)) = [])
  \/ (exists nonce price stx,
        Chain.PendingNonceAt cl (Chain.fromAddress cl) = Ok nonce
        /\ Chain.SuggestGasPrice cl = Ok price
        /\ Chain.SignTx cl
             {| Chain.tx_nonce := nonce;
                Chain.tx_to := Chain.HexToAddress cl to;
                Chain.tx_amount := amt; Chain.tx_gasLimit := 21000;
                Chain.tx_gasPrice := price; Chain.tx_data := [] |}
             (Chain.chainID cl) = Ok stx
        /\ snd (Chain.SendTx cl amt to) = Chain.SendTransaction cl stx
        /\ List.filter Chain.is_broadcast (fst (Chain.SendTx cl amt to))
           = [Chain.CallSendTransaction stx]).
Proof.
  unfold Chain.SendTx.
  destruct (Chain.PendingNonceAt cl (Chain.fromAddress cl)) as [nonce | e];
    [| left; exists e; split; reflexivity].
  destruct (Chain.SuggestGasPrice cl) as [price | e];
    [| left; exists e; split; reflexivity].
  destruct (Chain.SignTx cl _ (Chain.chainID cl)) as [stx | e] eqn:Hsign;
    [| left; exists e; split; reflexivity].
  right. exists nonce, price, stx. cbn. repeat split; try reflexivity.
  exact Hsign.
Qed.

(** X19: [SendTx] returns nil only after it has broadcast one transaction,
    and only one, that the node accepted: a transfer of exactly [amount]
    to the address the identifier decodes to, with gas limit 21000 and no
    data, carrying the nonce and gas price the node gave and signed for the
    configured chain. *)
Theorem X19_SendTx_nil_means_broadcast cl (amt : Z) (to : string) :
  snd (Chain.SendTx cl amt to) = None ->
  exists nonce price stx,
    Chain.PendingNonceAt cl (Chain.fromAddress cl) = Ok nonce
    /\ Chain.SuggestGasPrice cl = Ok price
    /\ Chain.SignTx cl
         {| Chain.tx_nonce := nonce; Chain.tx_to := Chain.HexToAddress cl to;
            Chain.tx_amount := amt; Chain.tx_gasLimit := 21000;
            Chain.tx_gasPrice := price; Chain.tx_data := [] |}
         (Chain.chainID cl) = Ok stx
    /\ Chain.SendTransaction cl stx = None
    /\ List.filter Chain.is_broadcast (fst (Chain.SendTx cl amt to))
       = [Chain.CallSendTransaction stx].
Proof.
  intros Hnil.
  destruct (SendTx_cases cl amt to)
    as [(e & He & _) | (nonce & price & stx & Hn & Hp & Hs & Hres & Hb)].
  - congruence.
  - exists nonce, price, stx. rewrite Hres in Hnil. auto.
Qed.

(** X20: [SendTx] broadcasts at most one transaction per call, and none
    when fetching the nonce or the gas price fails, in which case it
    returns an error; whatever it broadcasts, accepted by the node or not,
    is the signature for the configured chain of a transfer of exactly
    [amount] with gas limit 21000 and no data. *)
Theorem X20_SendTx_broadcasts cl (amt : Z) (to : string) :
  (length (List.filter Chain.is_broadcast (fst (Chain.SendTx cl amt to)))
   <= 1)%nat
  /\ (forall e, Chain.PendingNonceAt cl (Chain.fromAddress cl) = Err e ->
        Chain.SendTx cl amt to
        = ([Chain.CallPendingNonceAt (Chain.fromAddress cl)], Some e))
  /\ (forall e, Chain.SuggestGasPrice cl = Err e ->
        List.filter Chain.is_broadcast (fst (Chain.SendTx cl amt to)) = []
        /\ is_Some (snd (Chain.SendTx cl amt to)))
  /\ (forall stx, In (Chain.CallSendTransaction stx)
                    (fst (Chain.SendTx cl amt to)) ->
        exists tx, Chain.SignTx cl tx (Chain.chainID cl) = Ok stx
                   /\ Chain.tx_amount tx = amt
                   /\ Chain.tx_to tx = Chain.HexToAddress cl to
                   /\ Chain.tx_gasLimit tx = 21000
                   /\ Chain.tx_data tx = []).
Proof.
  split; [| split; [| split]].
  - destruct (SendTx_cases cl amt to)
      as [(e & _ & Hb) | (nonce & price & stx & _ & _ & _ & _ & Hb)];
      rewrite Hb; cbn; lia.
  - intros e He. unfold Chain.SendTx. rewrite He. reflexivity.
  - intros e He. unfold Chain.SendTx. rewrite He.
    destruct (Chain.PendingNonceAt cl _); cbn; split;
      try reflexivity; eexists; reflexivity.
  - intros stx Hin.
    assert (Hin' : In (Chain.CallSendTransaction stx)
                     (List.filter Chain.is_broadcast
                        (fst (Chain.SendTx cl amt to))))
      by (apply List.filter_In; split; [exact Hin | reflexivity]).
    destruct (SendTx_cases cl amt to)
      as [(e & _ & Hb) | (nonce & price & stx' & _ & _ & Hs & _ & Hb)];
      rewrite Hb in Hin'.
    + destruct Hin'.
    + destruct Hin' as [Heq | []]. injection Heq as ->.
      eexists. split; [exact Hs |]. cbn. repeat split; reflexivity.
Qed.

(** X21: with [SendTx] as the submitter, the dispatcher tells a client
    "accepted" only if the node accepted a signed transfer of the tier's
    amount to the address of the request's identifier. *)
Theorem X21_success_means_transfer
  (fl : Flags) (env : Env) cl (msg : Msg) (tm : gmap string Z) (s : string) :
  replies (trace_of fl (env_with_client env cl) msg tm) = [ReplySuccess s] ->
  exists nonce price stx,
    Chain.SignTx cl
      {| Chain.tx_nonce := nonce;
         Chain.tx_to := Chain.HexToAddress cl (URL msg);
         Chain.tx_amount := amount fl (Tier msg);
         Chain.tx_gasLimit := 21000;
         Chain.tx_gasPrice := price; Chain.tx_data := [] |}
      (Chain.chainID cl) = Ok stx
    /\ Chain.SendTransaction cl stx = None.
Proof.
  unfold trace_of.
  iteration_cases fl (env_with_client env cl) msg tm;
    cbn [snd events replies]; intros H; try discriminate.
  cbn [SendTx env_with_client] in Htx.
  destruct (SendTx_cases cl (amount fl (Tier msg)) (URL msg))
    as [(e & He & _) | (nonce & price & stx & _ & _ & Hs & Hres & _)].
  - congruence.
  - exists nonce, price, stx. split; [exact Hs | congruence].
Qed.

End SendTxProperties.

Lemma X19_SendTx_nil_witness :
  snd (Chain.SendTx client_example 2500000000000000000 "a") = None
  /\ exists nonce price stx,
       Chain.SignTx client_example
         {| Chain.tx_nonce := nonce; Chain.tx_to := "a";
            Chain.tx_amount := 2500000000000000000;
            Chain.tx_gasLimit := 21000;
            Chain.tx_gasPrice := price; Chain.tx_data := [] |}
         100 = Ok stx.
Proof.
  assert (Hnil : snd (Chain.SendTx client_example 2500000000000000000 "a")
                 = None) by reflexivity.
  split; [exact Hnil |].
  destruct (X19_SendTx_nil_means_broadcast client_example
              2500000000000000000 "a" Hnil)
    as (nonce & price & stx & _ & _ & Hs & _).
  exists nonce, price, stx. exact Hs.
Defined.

Lemma X21_success_means_transfer_witness :
  replies (trace_of (default_flags 2)
             (env_with_client (env_at an_instant None) client_example)
             (request "a" 1) ∅)
  = [ReplySuccess "Funding request accepted for Faucet into a"]
  /\ exists nonce price stx,
       Chain.SignTx client_example
         {| Chain.tx_nonce := nonce; Chain.tx_to := "a";
            Chain.tx_amount := amount (default_flags 2) 1;
            Chain.tx_gasLimit := 21000;
            Chain.tx_gasPrice := price; Chain.tx_data := [] |}
         100 = Ok stx.
Proof.
  assert (Hr : replies (trace_of (default_flags 2)
                  (env_with_client (env_at an_instant None) client_example)
                  (request "a" 1) ∅)
               = [ReplySuccess "Funding request accepted for Faucet into a"])
    by (vm_compute; reflexivity).
  split; [exact Hr |].
  destruct (X21_success_means_transfer (default_flags 2)
              (env_at an_instant None) client_example (request "a" 1) ∅ _ Hr)
    as (nonce & price & stx & Hs & _).
  exists nonce, price, stx. exact Hs.
Defined.

(** ** Identifiers do not interfere *)

Lemma timeouts_after_funds (fl : Flags) (env : Env) (msg : Msg)
  (tm : gmap string Z) :
  timeouts_after fl env msg tm
  = if funds fl env msg tm
    then <[URL msg := committed_time fl env msg]> tm
    else tm.
Proof.
  unfold timeouts_after, funds, committed_time.
  iteration_cases fl env msg tm; reflexivity.
Qed.

(** What an iteration does depends on the map only through the entry of
    the requested identifier. *)
Lemma iteration_reads_one_entry (fl : Flags) (env : Env) (msg : Msg)
  (tm tm' : gmap string Z) :
  tm !! URL msg = tm' !! URL msg ->
  trace_of fl env msg tm = trace_of fl env msg tm'
  /\ flow_of fl env msg tm = flow_of fl env msg tm'
  /\ funds fl env msg tm = funds fl env msg tm'.
Proof.
  intros Hsame.
  assert (Hst : stored tm' (URL msg) = stored tm (URL msg))
    by (unfold stored; rewrite Hsame; reflexivity).
  assert (Hel : forall b, eligible tm (URL msg) (now_check env) = b ->
                          eligible tm' (URL msg) (now_check env) = b)
    by (intros b <-; unfold eligible; rewrite Hst; reflexivity).
  split; [| split].
  - unfold trace_of.
    destruct (tier_rejected fl msg) eqn:Hrej.
    + rewrite !run_rejected by exact Hrej. reflexivity.
    + destruct (eligible tm (URL msg) (now_check env)) eqn:He.
      * destruct (SendTx env (amount fl (Tier msg)) (URL msg)) eqn:Htx.
        -- rewrite (run_failed fl env msg tm _ Hrej He Htx),
             (run_failed fl env msg tm' _ Hrej (Hel _ eq_refl) Htx).
           reflexivity.
        -- rewrite (run_funded fl env msg tm Hrej He Htx),
             (run_funded fl env msg tm' Hrej (Hel _ eq_refl) Htx).
           reflexivity.
      * rewrite (run_limited fl env msg tm Hrej He),
          (run_limited fl env msg tm' Hrej (Hel _ eq_refl)).
        cbn [snd events]. rewrite Hst. reflexivity.
  - unfold flow_of.
    destruct (tier_rejected fl msg) eqn:Hrej.
    + rewrite !run_rejected by exact Hrej. reflexivity.
    + destruct (eligible tm (URL msg) (now_check env)) eqn:He.
      * destruct (SendTx env (amount fl (Tier msg)) (URL msg)) eqn:Htx.
        -- rewrite (run_failed fl env msg tm _ Hrej He Htx),
             (run_failed fl env msg tm' _ Hrej (Hel _ eq_refl) Htx).
           reflexivity.
        -- rewrite (run_funded fl env msg tm Hrej He Htx),
             (run_funded fl env msg tm' Hrej (Hel _ eq_refl) Htx).
           reflexivity.
      * rewrite (run_limited fl env msg tm Hrej He),
          (run_limited fl env msg tm' Hrej (Hel _ eq_refl)).
        cbn [fst]. rewrite Hst. reflexivity.
  - unfold funds. rewrite (Hel _ eq_refl). reflexivity.
Qed.

(** X22: requests for two different identifiers do not interfere: what
    the second is answered, and what is submitted for it, is the same
    whether or not the first was served before it, and the map they leave
    is the same in either order. *)
Theorem X22_identifiers_independent
  (fl : Flags) (env1 env2 : Env) (msg1 msg2 : Msg) (tm : gmap string Z) :
  URL msg1 <> URL msg2 ->
  trace_of fl env2 msg2 (timeouts_after fl env1 msg1 tm)
  = trace_of fl env2 msg2 tm
  /\ flow_of fl env2 msg2 (timeouts_after fl env1 msg1 tm)
     = flow_of fl env2 msg2 tm
  /\ timeouts_after fl env2 msg2 (timeouts_after fl env1 msg1 tm)
     = timeouts_after fl env1 msg1 (timeouts_after fl env2 msg2 tm).
Proof.
  intros Hne.
  assert (H21 : timeouts_after fl env1 msg1 tm !! URL msg2 = tm !! URL msg2).
  { rewrite timeouts_after_funds. destruct (funds fl env1 msg1 tm);
      [apply lookup_insert_ne; exact Hne | reflexivity]. }
  assert (H12 : timeouts_after fl env2 msg2 tm !! URL msg1 = tm !! URL msg1).
  { rewrite timeouts_after_funds. destruct (funds fl env2 msg2 tm);
      [apply lookup_insert_ne; congruence | reflexivity]. }
  destruct (iteration_reads_one_entry fl env2 msg2 _ _ H21) as (Htr & Hfl & Hf2).
  destruct (iteration_reads_one_entry fl env1 msg1 _ _ H12) as (_ & _ & Hf1).
  split; [exact Htr | split; [exact Hfl |]].
  rewrite (timeouts_after_funds fl env2 msg2 (timeouts_after fl env1 msg1 tm)).
  rewrite (timeouts_after_funds fl env1 msg1 (timeouts_after fl env2 msg2 tm)).
  rewrite Hf2, Hf1.
  rewrite (timeouts_after_funds fl env1 msg1 tm).
  rewrite (timeouts_after_funds fl env2 msg2 tm).
  destruct (funds fl env1 msg1 tm), (funds fl env2 msg2 tm); try reflexivity.
  apply insert_insert_ne. congruence.
Qed.

Lemma X22_identifiers_independent_witness :
  URL (request "a" 0) <> URL (request "b" 1)
  /\ replies (trace_of (default_flags 2) (env_at (an_instant + 5) None)
                (request "b" 1)
                (timeouts_after (default_flags 2) (env_at an_instant None)
                   (request "a" 0) ∅))
     = [ReplySuccess "Funding request accepted for Faucet into b"].
Proof.
  assert (Hne : URL (request "a" 0) <> URL (request "b" 1)) by discriminate.
  split; [exact Hne |].
  rewrite (proj1 (X22_identifiers_independent (default_flags 2)
                    (env_at an_instant None) (env_at (an_instant + 5) None)
                    (request "a" 0) (request "b" 1) ∅ Hne)).
  vm_compute. reflexivity.
Defined.

(** X23: a request that arrives exactly at the identifier's stored time is
    refused, and, the clock not running backward, the wait it is told is
    zero or negative. *)
Theorem X23_refused_with_no_wait_left
  (fl : Flags) (env : Env) (msg : Msg) (tm : gmap string Z) :
  valid_tier fl (Tier msg) ->
  now_check env = stored tm (URL msg) ->
  now_check env <= now_reply env ->
  exists d : Z,
    d <= 0
    /\ replies (trace_of fl env msg tm)
       = [ReplyError (PrettyDuration env d +:+ " left until next allowance")]
    /\ reaches_submitter (trace_of fl env msg tm) = false.
Proof.
  intros Hvalid Heq Hclock.
  pose proof (valid_not_rejected fl msg Hvalid) as Hnr.
  assert (Hel : eligible tm (URL msg) (now_check env) = false)
    by (apply Z.ltb_ge; lia).
  unfold trace_of. rewrite (run_limited fl env msg tm Hnr Hel).
  cbn [snd events].
  exists (Until (stored tm (URL msg)) (now_reply env)).
  split; [| split; reflexivity].
  unfold Until, GoInt.min_int64, GoInt.max_int64. lia.
Qed.

Lemma X23_refused_with_no_wait_left_witness :
  valid_tier (default_flags 2) (Tier (request "a" 0))
  /\ now_check (env_at 1000 None) = stored {["a" := 1000]} (URL (request "a" 0))
  /\ reaches_submitter
       (trace_of (default_flags 2) (env_at 1000 None) (request "a" 0)
          {["a" := 1000]}) = false.
Proof.
  assert (Hv : valid_tier (default_flags 2) (Tier (request "a" 0)))
    by (vm_compute; reflexivity).
  assert (Heq : now_check (env_at 1000 None)
                = stored {["a" := 1000]} (URL (request "a" 0)))
    by (vm_compute; reflexivity).
  assert (Hclock : now_check (env_at 1000 None) <= now_reply (env_at 1000 None))
    by (vm_compute; discriminate).
  destruct (X23_refused_with_no_wait_left (default_flags 2) (env_at 1000 None)
              (request "a" 0) {["a" := 1000]} Hv Heq Hclock)
    as (d & _ & _ & Hno).
  split; [exact Hv | split; [exact Heq | exact Hno]].
Defined.
